(** * The organization-flow checker (scripts/tests/test-organization-flows.py)

    A shallow embedding of [test_organization_flows]: the script drives one
    browser page through a fixed sequence of navigations and DOM queries,
    records each check with [log_test], prints a summary and leaves through
    [sys.exit].  The browser, the application under test and the file system
    are external: they are an interface ([Playwright]) whose operations may
    return, raise, and deliver page events while they run. *)

From Stdlib Require Import String Ascii List ZArith Lia Bool Arith.
From Stdlib Require Import DecimalString SpecFloat.
Import ListNotations.
Local Open Scope string_scope.

(** ** Python values used by the script *)

Module Py.

(** [sub in s] on strings. *)
Fixpoint str_in (sub s : string) : bool :=
  if String.prefix sub s then true
  else match s with
       | EmptyString => false
       | String _ s' => str_in sub s'
       end.

(** [str.lower()], on the bytes of the string: the letters A-Z. *)
Definition lower_char (c : ascii) : ascii :=
  let n := nat_of_ascii c in
  if (65 <=? n)%nat && (n <=? 90)%nat then ascii_of_nat (n + 32) else c.

Fixpoint lower (s : string) : string :=
  match s with
  | EmptyString => EmptyString
  | String c s' => String (lower_char c) (lower s')
  end.

(** ["="*60] *)
Fixpoint repeat_str (s : string) (n : nat) : string :=
  match n with
  | O => ""
  | S n' => s ++ repeat_str s n'
  end.

(** [bool(s)] for a string: non-empty. *)
Definition truthy (s : string) : bool :=
  match s with
  | EmptyString => false
  | _ => true
  end.

(** [str(n)] for integers, [str(b)] for booleans, as f-strings render them. *)
Definition str_nat (n : nat) : string := NilZero.string_of_uint (Nat.to_uint n).
Definition str_int (z : Z) : string := NilZero.string_of_int (Z.to_int z).
Definition str_bool (b : bool) : string := if b then "True" else "False".

(** Python floats are IEEE binary64. *)
Definition prec : Z := 53.
Definition emax : Z := 1024.
Definition float := spec_float.
Definition float_of_nat (n : nat) : float :=
  binary_normalize prec emax (Z.of_nat n) 0 false.
Definition truediv (a b : nat) : float :=
  SFdiv prec emax (float_of_nat a) (float_of_nat b).
Definition fmul (x y : float) : float := SFmul prec emax x y.

(** [m * 2^e * 10] rounded to the nearest integer, ties to even: the
    digits that the format [.1f] keeps. *)
Definition tenths (m : positive) (e : Z) : Z :=
  if (0 <=? e)%Z then (10 * Z.pos m * 2 ^ e)%Z
  else
    let d := (2 ^ (- e))%Z in
    let q := (10 * Z.pos m / d)%Z in
    let r := (10 * Z.pos m mod d)%Z in
    match (2 * r ?= d)%Z with
    | Lt => q
    | Gt => (q + 1)%Z
    | Eq => if Z.even q then q else (q + 1)%Z
    end.

(** [f"{x:.1f}"] *)
Definition format_1f (x : float) : string :=
  match x with
  | S754_zero s => (if s then "-" else "") ++ "0.0"
  | S754_infinity s => if s then "-inf" else "inf"
  | S754_nan => "nan"
  | S754_finite s m e =>
      let t := tenths m e in
      (if s then "-" else "") ++ str_int (t / 10) ++ "." ++ str_int (t mod 10)
  end.

End Py.

(** ** The external world: browser, application under test, file system *)

(** Page events delivered to the listeners registered with [page.on]. *)
Inductive event :=
| Console (type text : string)
| PageError (err : string).

(** An external call returns or raises an [Exception] with a message. *)
Inductive reply (A : Type) :=
| Returns (a : A)
| Raises (msg : string).
Arguments Returns {A} a.
Arguments Raises {A} msg.

(** The operations the script uses, over a world [W] that each of them may
    change.  Page operations also deliver the events that occur while they
    run.  [page.url] and [os.path.exists] only read. *)
Class Playwright (W : Type) := {
  sync_playwright_enter : W -> reply unit * W;
  sync_playwright_exit : W -> W;
  chromium_launch : W -> reply unit * W;
  new_context : W -> reply unit * W;
  new_page : W -> reply unit * W;
  goto : string -> W -> reply unit * list event * W;
  screenshot : string -> W -> reply unit * list event * W;
  title : W -> reply string * list event * W;
  url : W -> string;
  locator_count : string -> W -> reply Z * list event * W;
  content : W -> reply string * list event * W;
  request_get : string -> W -> reply Z * list event * W;
  wait_for_timeout : Z -> W -> reply unit * list event * W;
  browser_close : W -> reply unit * list event * W;
  path_exists : string -> W -> bool
}.

(** What the script asked of the world, in order. *)
Inductive call :=
| CEnter | CLaunch | CNewContext | CNewPage
| CGoto (u : string) | CScreenshot (path : string) | CTitle
| CLocatorCount (selector : string) | CContent | CRequestGet (u : string)
| CWait (ms : Z) | CClose | CExit.

(** ** The state of a run *)

(** [results = {"passed": [], "failed": [], "total": 0}] *)
Record Results := mkResults {
  passed : list string;
  failed : list string;
  total : nat
}.

(** What a run writes: a line of standard output, or a stack trace, which
    [traceback.print_exc()] and the interpreter write on standard error. *)
Inductive output :=
| Print (line : string)
| Traceback (msg : string).

Inductive exn :=
| Exception (msg : string)
| SystemExit (code : Z).

Inductive result (A : Type) :=
| Ok (a : A)
| Exc (e : exn).
Arguments Ok {A} a.
Arguments Exc {A} e.

Record state (W : Type) := mkState {
  world : W;
  results : Results;
  stdout : list output;
  js_errors : option (list string);
  trace : list call
}.
Arguments mkState {W}.
Arguments world {W}.
Arguments results {W}.
Arguments stdout {W}.
Arguments js_errors {W}.
Arguments trace {W}.

Definition M (W A : Type) : Type := state W -> result A * state W.

Definition ret {W A} (a : A) : M W A := fun s => (Ok a, s).

Definition bind {W A B} (m : M W A) (f : A -> M W B) : M W B :=
  fun s =>
    match m s with
    | (Ok a, s') => f a s'
    | (Exc e, s') => (Exc e, s')
    end.

Definition raise {W A} (e : exn) : M W A := fun s => (Exc e, s).

Declare Scope flow_scope.
Delimit Scope flow_scope with flow.
Notation "x <- m ;; k" := (bind m (fun x => k))
  (at level 61, m at next level, right associativity) : flow_scope.
Notation "m ;; k" := (bind m (fun _ => k))
  (at level 61, right associativity) : flow_scope.
Local Open Scope flow_scope.

Definition nl : string := String (ascii_of_nat 10) "".
Definition dq : string := String (ascii_of_nat 34) "".
Definition base_url : string := "http://localhost:3000".
(** Line 213. *)
Definition summary_header : string := "📊 TEST SUMMARY".

(** The declared checks, in the order of the script. *)
Definition check_names : list string :=
  [ "Home page loads successfully";
    "Login page has required form elements";
    "Dashboard redirects unauthenticated users";
    "Onboarding page exists with organization creation";
    "API /auth/me endpoint responds";
    "API /organizations endpoint responds";
    "Team page exists in routing";
    "Dashboard has proper structure";
    "Middleware protects all dashboard routes";
    "No JavaScript errors on main pages";
    "Production build artifacts exist" ].

Definition protected_routes : list string :=
  [ "/dashboard/analytics"; "/dashboard/conversations"; "/dashboard/settings" ].

Definition test_pages : list string :=
  [ "/"; "/login"; "/dashboard"; "/onboarding" ].

(** ** The script *)

Section Script.

Context {W : Type} {PW : Playwright W}.

Definition set_world (w : W) (s : state W) : state W :=
  mkState w (results s) (stdout s) (js_errors s) (trace s).
Definition set_results (r : Results) (s : state W) : state W :=
  mkState (world s) r (stdout s) (js_errors s) (trace s).
Definition set_js_errors (j : option (list string)) (s : state W) : state W :=
  mkState (world s) (results s) (stdout s) j (trace s).
Definition emit (o : output) (s : state W) : state W :=
  mkState (world s) (results s) (stdout s ++ [o])%list (js_errors s) (trace s).
Definition traced (c : call) (s : state W) : state W :=
  mkState (world s) (results s) (stdout s) (js_errors s) (trace s ++ [c])%list.

Definition print (line : string) : M W unit :=
  fun s => (Ok tt, emit (Print line) s).

(** The listeners.  Lines 46-47 register two printing lambdas before the
    checks start; Test 9 adds [handle_error], which appends to the list
    [js_errors] it has just created.  Listeners run in registration
    order. *)
Definition on_event (s : state W) (ev : event) : state W :=
  match ev with
  | Console type text =>
      emit (Print ("[Browser Console] " ++ type ++ ": " ++ text)) s
  | PageError err =>
      let s' := emit (Print ("[Browser Error] " ++ err)) s in
      match js_errors s' with
      | Some errs => set_js_errors (Some (errs ++ [err])%list) s'
      | None => s'
      end
  end.

(** One call on the page: the world moves, the listeners see the events,
    and the call returns or raises. *)
Definition page_call {A} (c : call) (op : W -> reply A * list event * W)
  : M W A :=
  fun s =>
    let '(r, evs, w') := op (world s) in
    let s' := fold_left on_event evs (set_world w' (traced c s)) in
    match r with
    | Returns a => (Ok a, s')
    | Raises msg => (Exc (Exception msg), s')
    end.

Definition page_goto (u : string) : M W unit := page_call (CGoto u) (goto u).
Definition page_screenshot (path : string) : M W unit :=
  page_call (CScreenshot path) (screenshot path).
Definition page_title : M W string := page_call CTitle title.
Definition page_url : M W string := fun s => (Ok (url (world s)), s).
Definition page_content : M W string := page_call CContent content.
Definition page_wait_for_timeout (ms : Z) : M W unit :=
  page_call (CWait ms) (wait_for_timeout ms).
Definition page_request_get (u : string) : M W Z :=
  page_call (CRequestGet u) (request_get u).
Definition os_path_exists (path : string) : M W bool :=
  fun s => (Ok (path_exists path (world s)), s).

(** [page.locator(sel).count() > 0] *)
Definition has (selector : string) : M W bool :=
  n <- page_call (CLocatorCount selector) (locator_count selector) ;;
  ret (0 <? n)%Z.

(** [a or b] and [a and b] evaluate [b] only when [a] does not decide. *)
Definition or_else (a : bool) (b : M W bool) : M W bool :=
  if a then ret true else b.
Definition and_then (a : bool) (b : M W bool) : M W bool :=
  if a then b else ret false.

(** [log_test], lines 26-35. *)
Definition record (name : string) (ok : bool) (r : Results) : Results :=
  if ok then mkResults (passed r ++ [name])%list (failed r) (S (total r))
  else mkResults (passed r) (failed r ++ [name])%list (S (total r)).

Definition pass_line (name : string) : string := "✅ PASS: " ++ name.
Definition fail_line (name : string) : string := "❌ FAIL: " ++ name.
Definition details_line (details : string) : string := "   Details: " ++ details.

Definition log_test (name : string) (ok : bool) (details : string) : M W unit :=
  fun s =>
    let s1 := set_results (record name ok (results s)) s in
    let s2 := emit (Print (if ok then pass_line name else fail_line name)) s1 in
    (Ok tt, if Py.truthy details then emit (Print (details_line details)) s2 else s2).

(** Test 1, lines 54-60. *)
Definition test_1 : M W unit :=
  print (nl ++ "📍 Test 1: Home Page Access") ;;
  page_goto base_url ;;
  page_screenshot "/tmp/homepage.png" ;;
  t <- page_title ;;
  home_loaded <- and_then (negb (t =? ""))
                   (u <- page_url ;; ret (negb (Py.str_in "error" (Py.lower u)))) ;;
  t' <- page_title ;;
  log_test "Home page loads successfully" home_loaded ("Title: " ++ t').

(** Test 2, lines 62-75. *)
Definition test_2 : M W unit :=
  print (nl ++ "📍 Test 2: Login Page") ;;
  page_goto (base_url ++ "/login") ;;
  page_screenshot "/tmp/login.png" ;;
  has_email_input <- has ("input[type=" ++ dq ++ "email" ++ dq ++ "]") ;;
  has_password_input <- has ("input[type=" ++ dq ++ "password" ++ dq ++ "]") ;;
  submit <- has ("button[type=" ++ dq ++ "submit" ++ dq ++ "]") ;;
  has_submit_button <-
    or_else submit (has ("button:has-text(" ++ dq ++ "Sign in" ++ dq ++ ")")) ;;
  let login_page_valid := has_email_input && has_password_input && has_submit_button in
  log_test "Login page has required form elements" login_page_valid
    ("Email: " ++ Py.str_bool has_email_input ++
     ", Password: " ++ Py.str_bool has_password_input ++
     ", Submit: " ++ Py.str_bool has_submit_button).

(** Test 3, lines 77-84. *)
Definition test_3 : M W unit :=
  print (nl ++ "📍 Test 3: Dashboard Authentication") ;;
  page_goto (base_url ++ "/dashboard") ;;
  page_screenshot "/tmp/dashboard-unauth.png" ;;
  u <- page_url ;;
  redirected_to_login <-
    or_else (Py.str_in "login" u)
      (u' <- page_url ;;
       or_else (Py.str_in "auth" u')
         (has ("input[type=" ++ dq ++ "email" ++ dq ++ "]"))) ;;
  u'' <- page_url ;;
  log_test "Dashboard redirects unauthenticated users" redirected_to_login
    ("Current URL: " ++ u'').

(** Test 4, lines 86-98. *)
Definition test_4 : M W unit :=
  print (nl ++ "📍 Test 4: Onboarding Page") ;;
  page_goto (base_url ++ "/onboarding") ;;
  page_screenshot "/tmp/onboarding.png" ;;
  by_name <- has ("input[name=" ++ dq ++ "organizationName" ++ dq ++ "]") ;;
  has_org_name_input <-
    or_else by_name (has ("input[placeholder*=" ++ dq ++ "organization" ++ dq ++ "]")) ;;
  has_create_button <- has ("button:has-text(" ++ dq ++ "Create" ++ dq ++ ")") ;;
  onboarding_exists <-
    or_else (has_org_name_input || has_create_button)
      (c <- page_content ;; ret (Py.str_in "organization" (Py.lower c))) ;;
  log_test "Onboarding page exists with organization creation" onboarding_exists
    ("Has org input: " ++ Py.str_bool has_org_name_input ++
     ", Has create button: " ++ Py.str_bool has_create_button).

(** [api_response.status in [200, 401]] *)
Definition expected_status (status : Z) : bool :=
  ((status =? 200) || (status =? 401))%Z.

(** Test 5, lines 100-113: two endpoints, two recorded checks. *)
Definition test_5 : M W unit :=
  print (nl ++ "📍 Test 5: Critical API Endpoints") ;;
  status <- page_request_get (base_url ++ "/api/auth/me") ;;
  let auth_me_works := expected_status status in
  log_test "API /auth/me endpoint responds" auth_me_works
    ("Status: " ++ Py.str_int status) ;;
  status' <- page_request_get (base_url ++ "/api/organizations") ;;
  let orgs_api_works := expected_status status' in
  log_test "API /organizations endpoint responds" orgs_api_works
    ("Status: " ++ Py.str_int status').

(** Test 6, lines 115-125. *)
Definition test_6 : M W unit :=
  print (nl ++ "📍 Test 6: Team Management Page") ;;
  page_goto (base_url ++ "/dashboard/team") ;;
  page_screenshot "/tmp/team-page.png" ;;
  heading <- has ("h1:has-text(" ++ dq ++ "Team" ++ dq ++ ")") ;;
  team_page_accessible <-
    or_else heading
      (u <- page_url ;;
       or_else (Py.str_in "login" u)
         (u' <- page_url ;; ret (Py.str_in "onboarding" u'))) ;;
  u'' <- page_url ;;
  log_test "Team page exists in routing" team_page_accessible
    ("Current URL: " ++ u'').

(** Test 7, lines 127-143. *)
Definition test_7 : M W unit :=
  print (nl ++ "📍 Test 7: Dashboard UI Components") ;;
  page_goto (base_url ++ "/dashboard") ;;
  page_wait_for_timeout 2000 ;;
  page_screenshot "/tmp/dashboard-full.png" ;;
  nav <- has "nav" ;;
  has_navigation <-
    or_else nav
      (aside <- has "aside" ;;
       or_else aside (has ("[role=" ++ dq ++ "navigation" ++ dq ++ "]"))) ;;
  main <- has "main" ;;
  has_content <- or_else main (has ("[role=" ++ dq ++ "main" ++ dq ++ "]")) ;;
  dashboard_structured <-
    or_else (has_navigation || has_content)
      (u <- page_url ;; ret (Py.str_in "login" u)) ;;
  log_test "Dashboard has proper structure" dashboard_structured
    ("Has nav: " ++ Py.str_bool has_navigation ++
     ", Has main: " ++ Py.str_bool has_content).

(** Lines 156-159: one route of the sweep. *)
Definition probe (route : string) : M W bool :=
  page_goto (base_url ++ route) ;;
  u <- page_url ;;
  or_else (Py.str_in "login" u)
    (u' <- page_url ;;
     or_else (Py.str_in "onboarding" u')
       (has ("input[type=" ++ dq ++ "email" ++ dq ++ "]"))).

(** Lines 154-162: the loop and its [break]; the value is [all_protected]. *)
Fixpoint sweep (routes : list string) : M W bool :=
  match routes with
  | [] => ret true
  | route :: rest =>
      is_protected <- probe route ;;
      if negb is_protected then ret false else sweep rest
  end.

(** Test 8, lines 145-165. *)
Definition test_8 : M W unit :=
  print (nl ++ "📍 Test 8: Middleware Route Protection") ;;
  all_protected <- sweep protected_routes ;;
  log_test "Middleware protects all dashboard routes" all_protected
    ("Tested " ++ Py.str_nat (length protected_routes) ++ " routes").

(** Lines 178-180. *)
Fixpoint visit (pages : list string) : M W unit :=
  match pages with
  | [] => ret tt
  | test_page :: rest =>
      page_goto (base_url ++ test_page) ;;
      page_wait_for_timeout 1000 ;;
      visit rest
  end.

(** Lines 169-174: [js_errors = []] and [page.on('pageerror', handle_error)]. *)
Definition listen_for_errors : M W unit :=
  fun s => (Ok tt, set_js_errors (Some []) s).
Definition read_js_errors : M W (list string) :=
  fun s => (Ok (match js_errors s with Some errs => errs | None => [] end), s).

Fixpoint print_items (items : list string) : M W unit :=
  match items with
  | [] => ret tt
  | item :: rest => print ("   - " ++ item) ;; print_items rest
  end.

(** Test 9, lines 167-189. *)
Definition test_9 : M W unit :=
  print (nl ++ "📍 Test 9: JavaScript Error Detection") ;;
  listen_for_errors ;;
  visit test_pages ;;
  errs <- read_js_errors ;;
  let no_critical_js_errors := (length errs =? 0)%nat in
  log_test "No JavaScript errors on main pages" no_critical_js_errors
    ("Errors found: " ++ Py.str_nat (length errs)) ;;
  match errs with
  | [] => ret tt
  | _ => print (nl ++ "   JavaScript Errors Detected:") ;;
         print_items (firstn 5 errs)
  end.

(** Test 10, lines 191-200. *)
Definition test_10 : M W unit :=
  print (nl ++ "📍 Test 10: Build Artifacts") ;;
  next_dir_exists <- os_path_exists "/Users/jamesguy/Omniops/.next" ;;
  build_complete <-
    and_then next_dir_exists
      (os_path_exists "/Users/jamesguy/Omniops/.next/BUILD_ID") ;;
  log_test "Production build artifacts exist" build_complete
    (".next directory: " ++ Py.str_bool next_dir_exists).

(** The body of the [try], lines 50-200. *)
Definition checks : M W unit :=
  print (nl ++ Py.repeat_str "=" 60) ;;
  print "🧪 Starting Organization Migration E2E Tests" ;;
  print (Py.repeat_str "=" 60 ++ nl) ;;
  test_1 ;; test_2 ;; test_3 ;; test_4 ;; test_5 ;;
  test_6 ;; test_7 ;; test_8 ;; test_9 ;; test_10.

(** The same body, step by step: the lines printed first, lines 50-52,
    and Tests 1 to 10, each run when the one before it has returned. *)
Definition banner : M W unit :=
  print (nl ++ Py.repeat_str "=" 60) ;;
  print "🧪 Starting Organization Migration E2E Tests" ;;
  print (Py.repeat_str "=" 60 ++ nl).

Definition steps : list (M W unit) :=
  [ test_1; test_2; test_3; test_4; test_5;
    test_6; test_7; test_8; test_9; test_10 ].

Fixpoint in_turn (ms : list (M W unit)) : M W unit :=
  match ms with
  | [] => ret tt
  | m :: rest => m ;; in_turn rest
  end.

(** [except Exception as e], lines 202-205. *)
Definition except_handler (msg : string) : M W unit :=
  print (nl ++ "❌ Test suite encountered an error: " ++ msg) ;;
  fun s => (Ok tt, emit (Traceback msg) s).

(** Line 229.  The [else] branch is the integer 0, which [.1f] prints as
    the float 0.0. *)
Definition pass_rate (r : Results) : Py.float :=
  if (0 <? total r)%nat
  then Py.fmul (Py.truediv (length (passed r)) (total r)) (Py.float_of_nat 100)
  else S754_zero false.

Definition read_results : M W Results := fun s => (Ok (results s), s).
Definition sys_exit (code : Z) : M W unit := raise (SystemExit code).

(** Lines 211-238. *)
Definition report : M W unit :=
  print (nl ++ Py.repeat_str "=" 60) ;;
  print summary_header ;;
  print (Py.repeat_str "=" 60) ;;
  r <- read_results ;;
  print ("Total Tests: " ++ Py.str_nat (total r)) ;;
  print ("✅ Passed: " ++ Py.str_nat (length (passed r))) ;;
  print ("❌ Failed: " ++ Py.str_nat (length (failed r))) ;;
  match passed r with
  | [] => ret tt
  | _ => print (nl ++ "✅ Passed Tests:") ;; print_items (passed r)
  end ;;
  match failed r with
  | [] => ret tt
  | _ => print (nl ++ "❌ Failed Tests:") ;; print_items (failed r)
  end ;;
  print (nl ++ "📈 Pass Rate: " ++ Py.format_1f (pass_rate r) ++ "%") ;;
  if (0 <? length (failed r))%nat
  then print (nl ++ "⚠️  Some tests failed. Review the results above.") ;;
       sys_exit 1
  else print (nl ++ "🎉 All tests passed!") ;;
       sys_exit 0.

(** [finally], lines 207-238. *)
Definition cleanup : M W unit :=
  page_call CClose browser_close ;;
  report.

(** [try: body / except Exception as e: handler e / finally: final]. *)
Definition try_except_finally (body : M W unit) (handler : string -> M W unit)
  (final : M W unit) : M W unit :=
  fun s =>
    let '(r, s1) := body s in
    let '(r', s2) :=
      match r with
      | Exc (Exception msg) => handler msg s1
      | _ => (r, s1)
      end in
    let '(rf, s3) := final s2 in
    match rf with
    | Ok _ => (r', s3)
    | Exc e => (Exc e, s3)
    end.

(** Lines 39-43: these run before the [try]. *)
Definition acquire (c : call) (op : W -> reply unit * W) : M W unit :=
  fun s =>
    let '(r, w') := op (world s) in
    let s' := set_world w' (traced c s) in
    match r with
    | Returns _ => (Ok tt, s')
    | Raises msg => (Exc (Exception msg), s')
    end.

Definition open_page : M W unit :=
  acquire CLaunch chromium_launch ;;
  acquire CNewContext new_context ;;
  acquire CNewPage new_page.

(** Lines 49-238. *)
Definition guarded : M W unit :=
  try_except_finally checks except_handler cleanup.

(** The block under [with sync_playwright() as p], lines 38-238. *)
Definition session : M W unit :=
  open_page ;;
  guarded.

Definition initial (w : W) : state W :=
  mkState w (mkResults [] [] 0) [] None [].

(** Lines 17-238.  The [with] statement leaves through
    [sync_playwright_exit] however its block ends. *)
Definition test_organization_flows (w : W) : result unit * state W :=
  match acquire CEnter sync_playwright_enter (initial w) with
  | (Ok _, s) =>
      let '(r, s') := session s in
      (r, set_world (sync_playwright_exit (world s')) (traced CExit s'))
  | (Exc e, s) => (Exc e, s)
  end.

(** The status of the process: [sys.exit(code)], or the interpreter's 1
    for an exception nobody caught. *)
Definition exit_status (r : result unit) : Z :=
  match r with
  | Ok _ => 0
  | Exc (SystemExit code) => code
  | Exc (Exception _) => 1
  end.

End Script.

Arguments test_organization_flows {W} PW w.
Arguments session {W} PW.
Arguments checks {W} PW.
Arguments guarded {W} PW.

(** ** A scripted world, for running the script on concrete cases *)

Module Scripted.

(** What a site answers.  The world is the URL the page is on. *)
Record Site := mkSite {
  browser_starts : bool;
  server_up : bool;
  api_up : bool;
  lands_on : string -> string;
  title_at : string -> string;
  elements_at : string -> string -> Z;
  html_at : string -> string;
  api_status : string -> Z;
  events_at : string -> list event;
  files : list string
}.

Definition answer {A} (a : A) (here : string) : reply A * list event * string :=
  (Returns a, [], here).

#[export] Instance playwright (site : Site) : Playwright string := {
  sync_playwright_enter here := (Returns tt, here);
  sync_playwright_exit here := here;
  chromium_launch here :=
    if browser_starts site then (Returns tt, here)
    else (Raises "BrowserType.launch: Executable doesn't exist", here);
  new_context here := (Returns tt, here);
  new_page here := (Returns tt, "about:blank");
  goto u here :=
    if server_up site then (Returns tt, events_at site u, lands_on site u)
    else (Raises "Page.goto: net::ERR_CONNECTION_REFUSED", [], here);
  screenshot _ here := answer tt here;
  title here := answer (title_at site here) here;
  url here := here;
  locator_count selector here := answer (elements_at site here selector) here;
  content here := answer (html_at site here) here;
  request_get u here :=
    if api_up site then answer (api_status site u) here
    else (Raises "APIRequestContext.get: connect ECONNREFUSED", [], here);
  wait_for_timeout _ here := answer tt here;
  browser_close here := answer tt here;
  path_exists path _ := existsb (String.eqb path) (files site)
}.

Definition login_form (selector : string) : bool :=
  (selector =? "input[type=" ++ dq ++ "email" ++ dq ++ "]") ||
  (selector =? "input[type=" ++ dq ++ "password" ++ dq ++ "]") ||
  (selector =? "button[type=" ++ dq ++ "submit" ++ dq ++ "]").

(** A healthy application: every dashboard route redirects to the login
    page, the API asks for authentication, the build is there. *)
Definition healthy : Site := {|
  browser_starts := true;
  server_up := true;
  api_up := true;
  lands_on u := if Py.str_in "/dashboard" u then base_url ++ "/login" else u;
  title_at _ := "Omniops";
  elements_at here selector :=
    if Py.str_in "/login" here && login_form selector then 1%Z else 0%Z;
  html_at _ := "<h1>Create your organization</h1>";
  api_status _ := 401%Z;
  events_at _ := [];
  files := [ "/Users/jamesguy/Omniops/.next";
             "/Users/jamesguy/Omniops/.next/BUILD_ID" ]
|}.

Definition with_server (b : bool) (site : Site) : Site :=
  mkSite (browser_starts site) b (api_up site) (lands_on site) (title_at site)
    (elements_at site) (html_at site) (api_status site) (events_at site)
    (files site).
Definition with_api (b : bool) (site : Site) : Site :=
  mkSite (browser_starts site) (server_up site) b (lands_on site) (title_at site)
    (elements_at site) (html_at site) (api_status site) (events_at site)
    (files site).
Definition with_lands_on (f : string -> string) (site : Site) : Site :=
  mkSite (browser_starts site) (server_up site) (api_up site) f (title_at site)
    (elements_at site) (html_at site) (api_status site) (events_at site)
    (files site).

(** Nothing listens on port 3000. *)
Definition server_down : Site := with_server false healthy.
(** Pages load, API requests are refused. *)
Definition api_down : Site := with_api false healthy.
(** [/dashboard/settings] is served without authentication. *)
Definition settings_open : Site :=
  with_lands_on
    (fun u => if u =? base_url ++ "/dashboard/settings" then u
              else lands_on healthy u)
    healthy.


Abbreviation run site := (test_organization_flows (playwright site) "").

(** The same world, which also counts what it is asked. *)
Definition counted {W A} (n : nat) (x : reply A * W) : reply A * (W * nat) :=
  (fst x, (snd x, S n)).
Definition counted_page {W A} (n : nat) (x : reply A * list event * W)
  : reply A * list event * (W * nat) :=
  (fst x, (snd x, S n)).

Definition counting {W} (P : Playwright W) : Playwright (W * nat) := {|
  sync_playwright_enter wn := counted (snd wn) (sync_playwright_enter (fst wn));
  sync_playwright_exit wn := (sync_playwright_exit (fst wn), S (snd wn));
  chromium_launch wn := counted (snd wn) (chromium_launch (fst wn));
  new_context wn := counted (snd wn) (new_context (fst wn));
  new_page wn := counted (snd wn) (new_page (fst wn));
  goto u wn := counted_page (snd wn) (goto u (fst wn));
  screenshot path wn := counted_page (snd wn) (screenshot path (fst wn));
  title wn := counted_page (snd wn) (title (fst wn));
  url wn := url (fst wn);
  locator_count selector wn :=
    counted_page (snd wn) (locator_count selector (fst wn));
  content wn := counted_page (snd wn) (content (fst wn));
  request_get u wn := counted_page (snd wn) (request_get u (fst wn));
  wait_for_timeout ms wn := counted_page (snd wn) (wait_for_timeout ms (fst wn));
  browser_close wn := counted_page (snd wn) (browser_close (fst wn));
  path_exists path wn := path_exists path (fst wn)
|}.

End Scripted.

(** ** Reading a transcript *)

Fixpoint strip_prefix (p s : string) : option string :=
  match p with
  | EmptyString => Some s
  | String c p' =>
      match s with
      | EmptyString => None
      | String d s' => if Ascii.eqb c d then strip_prefix p' s' else None
      end
  end.

(** The lines that matter in a transcript: the PASS or FAIL line of a
    recorded check, the stack trace of the handler, and the header of the
    summary. *)
Inductive mark :=
| Checked (name : string) (ok : bool)
| Crashed (msg : string)
| Summarised.

Definition mark_of (o : output) : option mark :=
  match o with
  | Print line =>
      match strip_prefix "✅ PASS: " line with
      | Some name => Some (Checked name true)
      | None =>
          match strip_prefix "❌ FAIL: " line with
          | Some name => Some (Checked name false)
          | None => if line =? summary_header then Some Summarised else None
          end
      end
  | Traceback msg => Some (Crashed msg)
  end.

Fixpoint marks (out : list output) : list mark :=
  match out with
  | [] => []
  | o :: rest =>
      match mark_of o with
      | Some m => m :: marks rest
      | None => marks rest
      end
  end.

(** The checks of a transcript, in the order of their lines. *)
Fixpoint logged (ms : list mark) : list (string * bool) :=
  match ms with
  | [] => []
  | Checked name ok :: rest => (name, ok) :: logged rest
  | _ :: rest => logged rest
  end.

Fixpoint crashes (ms : list mark) : list string :=
  match ms with
  | [] => []
  | Crashed msg :: rest => msg :: crashes rest
  | _ :: rest => crashes rest
  end.

Definition check_mark (c : string * bool) : mark := Checked (fst c) (snd c).

Definition record_all (l : list (string * bool)) (r : Results) : Results :=
  fold_left (fun r c => record (fst c) (snd c) r) l r.

(** The Result Set invariant. *)
Definition consistent (r : Results) : Prop :=
  total r = length (passed r) + length (failed r).

Section Effects.

Context {W : Type} {PW : Playwright W}.

(** From [s] to [s'] exactly the checks [l] were recorded, in this order,
    and the browser was not closed. *)
Definition extends (l : list (string * bool)) (s s' : state W) : Prop :=
  results s' = record_all l (results s) /\
  marks (stdout s') = (marks (stdout s) ++ map check_mark l)%list /\
  exists t, trace s' = (trace s ++ t)%list /\ ~ In CClose t.

(** Records no check; may raise an [Exception]. *)
Definition quiet {A} (m : M W A) : Prop :=
  forall s, extends [] s (snd (m s)) /\
            forall e, fst (m s) = Exc e -> exists msg, e = Exception msg.

(** Records no check and returns. *)
Definition silent {A} (m : M W A) : Prop :=
  forall s, extends [] s (snd (m s)) /\ exists a, fst (m s) = Ok a.

(** Records the checks [names] in order; when it raises, it has recorded
    a proper prefix of them. *)
Definition logs {A} (m : M W A) (names : list string) : Prop :=
  forall s, exists l,
    extends l s (snd (m s)) /\
    match fst (m s) with
    | Ok _ => map fst l = names
    | Exc e => (exists msg, e = Exception msg) /\
               exists rest, rest <> [] /\ names = (map fst l ++ rest)%list
    end.

(** What Test 8 asks of the page a protected route leads to: the browser
    is on a login or onboarding URL, or the page shows a login form, that
    is, an e-mail input.  A page that cannot be asked shows none. *)
Definition email_input : string := "input[type=" ++ dq ++ "email" ++ dq ++ "]".

Definition redirected_to_login (w : W) : bool :=
  Py.str_in "login" (url w) || Py.str_in "onboarding" (url w).






End Effects.

(** ** What a run shows *)

Section Observations.

Context {W : Type} {PW : Playwright W}.

(** The Session is acquired: lines 37-43 all return. *)
Definition acquires (w : W) : bool :=
  match (acquire CEnter sync_playwright_enter ;; open_page) (initial w) with
  | (Ok _, _) => true
  | (Exc _, _) => false
  end.

(** The state in which the [try] starts. *)
Definition started (w : W) : state W :=
  snd ((acquire CEnter sync_playwright_enter ;; open_page) (initial w)).


(** Several prints at once. *)
Definition emit_all (outs : list output) (s : state W) : state W :=
  mkState (world s) (results s) (stdout s ++ outs)%list (js_errors s) (trace s).

End Observations.

(** The summary of a Result Set is on the transcript. *)
Definition summarised (r : Results) (out : list output) : Prop :=
  In (Print summary_header) out /\
  In (Print ("Total Tests: " ++ Py.str_nat (total r))) out /\
  In (Print ("✅ Passed: " ++ Py.str_nat (length (passed r)))) out /\
  In (Print ("❌ Failed: " ++ Py.str_nat (length (failed r)))) out /\
  In (Print (nl ++ "📈 Pass Rate: " ++ Py.format_1f (pass_rate r) ++ "%")) out.

Definition no_results : Results := mkResults [] [] 0.

(** The line of the handler, line 203. *)
Definition error_line (msg : string) : string :=
  nl ++ "❌ Test suite encountered an error: " ++ msg.

(** ** Two runs side by side *)

Section Twice.

Context {W1 W2 : Type} (P1 : Playwright W1) (P2 : Playwright W2).
Variable R : W1 -> W2 -> Prop.

Definition same_answer {A} (x : reply A * list event * W1)
  (y : reply A * list event * W2) : Prop :=
  fst (fst x) = fst (fst y) /\ snd (fst x) = snd (fst y) /\ R (snd x) (snd y).

Definition same_start (x : reply unit * W1) (y : reply unit * W2) : Prop :=
  fst x = fst y /\ R (snd x) (snd y).

(** [R] relates worlds that answer every operation alike, and keep doing
    so afterwards. *)
Record same_responses : Prop := {
  sr_enter : forall w1 w2, R w1 w2 ->
    same_start (sync_playwright_enter w1) (sync_playwright_enter w2);
  sr_exit : forall w1 w2, R w1 w2 ->
    R (sync_playwright_exit w1) (sync_playwright_exit w2);
  sr_launch : forall w1 w2, R w1 w2 ->
    same_start (chromium_launch w1) (chromium_launch w2);
  sr_new_context : forall w1 w2, R w1 w2 ->
    same_start (new_context w1) (new_context w2);
  sr_new_page : forall w1 w2, R w1 w2 ->
    same_start (new_page w1) (new_page w2);
  sr_goto : forall u w1 w2, R w1 w2 -> same_answer (goto u w1) (goto u w2);
  sr_screenshot : forall path w1 w2, R w1 w2 ->
    same_answer (screenshot path w1) (screenshot path w2);
  sr_title : forall w1 w2, R w1 w2 -> same_answer (title w1) (title w2);
  sr_url : forall w1 w2, R w1 w2 -> url w1 = url w2;
  sr_locator_count : forall selector w1 w2, R w1 w2 ->
    same_answer (locator_count selector w1) (locator_count selector w2);
  sr_content : forall w1 w2, R w1 w2 -> same_answer (content w1) (content w2);
  sr_request_get : forall u w1 w2, R w1 w2 ->
    same_answer (request_get u w1) (request_get u w2);
  sr_wait_for_timeout : forall ms w1 w2, R w1 w2 ->
    same_answer (wait_for_timeout ms w1) (wait_for_timeout ms w2);
  sr_browser_close : forall w1 w2, R w1 w2 ->
    same_answer (browser_close w1) (browser_close w2);
  sr_path_exists : forall path w1 w2, R w1 w2 ->
    path_exists path w1 = path_exists path w2
}.

Definition same_state (s1 : state W1) (s2 : state W2) : Prop :=
  R (world s1) (world s2) /\
  results s1 = results s2 /\
  stdout s1 = stdout s2 /\
  js_errors s1 = js_errors s2 /\
  trace s1 = trace s2.

Definition same_run {A} (m1 : M W1 A) (m2 : M W2 A) : Prop :=
  forall s1 s2, same_state s1 s2 ->
    fst (m1 s1) = fst (m2 s2) /\ same_state (snd (m1 s1)) (snd (m2 s2)).

End Twice.

(** ** More to observe in a run *)


(** The page errors the listener of line 47 printed, in order. *)
Definition browser_error_of (o : output) : option string :=
  match o with
  | Print line => strip_prefix "[Browser Error] " line
  | Traceback _ => None
  end.

Fixpoint browser_errors (out : list output) : list string :=
  match out with
  | [] => []
  | o :: rest =>
      match browser_error_of o with
      | Some err => err :: browser_errors rest
      | None => browser_errors rest
      end
  end.

(** A call that stays with the application on localhost, or writes its
    screenshot under /tmp. *)
Definition local_call (c : call) : bool :=
  match c with
  | CGoto u => String.prefix base_url u
  | CRequestGet u => String.prefix base_url u
  | CScreenshot path => String.prefix "/tmp/" path
  | _ => true
  end.

(** [p] out of [t] as a percentage, to the nearest tenth, in exact
    arithmetic, and its decimal notation. *)
Definition percent_tenths (p t : nat) : Z :=
  ((2000 * Z.of_nat p + Z.of_nat t) / (2 * Z.of_nat t))%Z.

Definition exact_rate (p t : nat) : string :=
  if (t =? 0)%nat then "0.0"
  else Py.str_int (percent_tenths p t / 10) ++ "."
       ++ Py.str_int (percent_tenths p t mod 10).

Section Listening.

Context {W : Type} {PW : Playwright W}.

(** While [handle_error] listens, [m] appends to [js_errors] the page
    errors that the transcript reports, and leaves the Result Set alone. *)
Definition collects {A} (m : M W A) : Prop :=
  forall s errs,
    js_errors s = Some errs ->
    exists new,
      js_errors (snd (m s)) = Some (errs ++ new)%list /\
      browser_errors (stdout (snd (m s))) = (browser_errors (stdout s) ++ new)%list /\
      results (snd (m s)) = results s.

(** [m] only makes local calls. *)
Definition stays_local {A} (m : M W A) : Prop :=
  forall s, exists t,
    trace (snd (m s)) = (trace s ++ t)%list /\ forallb local_call t = true.

End Listening.

(** A site whose login page throws a page error and logs to the console. *)
Definition noisy : Scripted.Site :=
  Scripted.mkSite true true true (Scripted.lands_on Scripted.healthy)
    (Scripted.title_at Scripted.healthy) (Scripted.elements_at Scripted.healthy)
    (Scripted.html_at Scripted.healthy) (Scripted.api_status Scripted.healthy)
    (fun u => if (u =? base_url ++ "/login")%string
              then [Console "log" "ready"; PageError "TypeError: x is undefined"]
              else [])
    (Scripted.files Scripted.healthy).

(** * The currency patcher (batch-fix-currency.py)

    [fix_file] reads a TypeScript file, and when it holds a pound sign it
    adds an import, declares [currencySymbol] in the exported async
    functions that need it, replaces every pound sign and writes the file
    back.  [main] does so for a fixed list of files. *)

Module Currency.

Local Open Scope list_scope.

(** A Python [str]: its code points. *)
Definition text := list N.

(** An ASCII literal of the script. *)
Definition lit (s : string) : text := map N_of_ascii (list_ascii_of_string s).

Definition pound : N := 163.
Definition newline : N := 10.

(** ** The [str] methods the script uses *)

Fixpoint starts_with (sub s : text) : bool :=
  match sub, s with
  | [], _ => true
  | _ :: _, [] => false
  | c :: sub', x :: s' => (x =? c)%N && starts_with sub' s'
  end.

(** The lowest index of [sub] in [s], counted from [pos], where [s] is
    what follows position [pos]; -1 when there is none. *)
Fixpoint find_in (sub s : text) (pos : Z) : Z :=
  if starts_with sub s then pos
  else match s with
       | [] => (-1)%Z
       | _ :: s' => find_in sub s' (pos + 1)%Z
       end.

(** [content.find(sub, start)] *)
Definition find (sub content : text) (start : nat) : Z :=
  find_in sub (skipn start content) (Z.of_nat start).

(** [sub in content] *)
Definition contains (sub content : text) : bool :=
  negb (find sub content 0 =? -1)%Z.

(** [content[a:b]], for indices within the text. *)
Definition slice (a b : nat) (content : text) : text :=
  firstn (b - a) (skipn a content).

(** [content.count(c)] and [content.replace(c, new)] for a one-character
    string [c]. *)
Definition count (c : N) (content : text) : nat :=
  length (filter (N.eqb c) content).

Definition replace (c : N) (new content : text) : text :=
  flat_map (fun x => if (x =? c)%N then new else [x]) content.

(** ** The two regular expressions

    Both patterns are sequences of literal characters and of greedy
    repetitions of one character class, which the matcher of [re] tries
    longest first. *)

Inductive atom :=
| Char (c : N)
| Many (cls : N -> bool)
| More (cls : N -> bool).

Definition chars (s : string) : list atom := map Char (lit s).

(** [cls*] followed by [rest]: as many characters as possible, then one
    fewer each time [rest] fails. *)
Fixpoint greedy (cls : N -> bool) (rest : text -> option nat) (s : text)
  : option nat :=
  match s with
  | x :: s' =>
      if cls x
      then match greedy cls rest s' with
           | Some n => Some (S n)
           | None => rest s
           end
      else rest s
  | [] => rest s
  end.

(** The length of the match of [re] that starts at the head of [s]. *)
Fixpoint match_here (re : list atom) (s : text) : option nat :=
  match re with
  | [] => Some 0
  | Char c :: re' =>
      match s with
      | x :: s' => if (x =? c)%N then option_map S (match_here re' s') else None
      | [] => None
      end
  | Many cls :: re' => greedy cls (match_here re') s
  | More cls :: re' =>
      match s with
      | x :: s' =>
          if cls x then option_map S (greedy cls (match_here re') s') else None
      | [] => None
      end
  end.

(** The texts a pattern matches. *)
Inductive accepts : list atom -> text -> Prop :=
| accepts_nil : accepts [] []
| accepts_char c re w :
    accepts re w -> accepts (Char c :: re) (c :: w)
| accepts_many cls re u w :
    forallb cls u = true -> accepts re w -> accepts (Many cls :: re) (u ++ w)
| accepts_more cls re x u w :
    cls x = true -> forallb cls u = true -> accepts re w ->
    accepts (More cls :: re) (x :: u ++ w).

(** [re.finditer]: the matches from left to right, as (start, end), each
    search resuming where the last match ended.  [s] is what follows
    position [pos]; [skip] characters of it belong to the last match. *)
Fixpoint finditer_from (re : list atom) (s : text) (pos skip : nat)
  : list (nat * nat) :=
  match s with
  | [] =>
      match skip, match_here re [] with
      | O, Some n => [(pos, pos + n)]
      | _, _ => []
      end
  | _ :: s' =>
      match skip with
      | S k => finditer_from re s' (S pos) k
      | O =>
          match match_here re s with
          | Some n => (pos, pos + n) :: finditer_from re s' (S pos) (pred n)
          | None => finditer_from re s' (S pos) 0
          end
      end
  end.

Definition finditer (re : list atom) (content : text) : list (nat * nat) :=
  finditer_from re content 0 0.

(** [.], and [[^{]]. *)
Definition dot (c : N) : bool := negb (c =? newline)%N.
Definition not_brace (c : N) : bool := negb (c =? 123)%N.

Section Patcher.

(** [\s] and [\w] are Python's Unicode classes. *)
Variables is_space is_word : N -> bool.

(** Line 33: [(import.*from.*;\n)] *)
Definition import_pattern : list atom :=
  chars "import" ++ [Many dot] ++ chars "from" ++ [Many dot]
  ++ chars ";" ++ [Char newline].

(** Line 49: [(export\s+async\s+function\s+\w+[^{]*\{)] *)
Definition function_pattern : list atom :=
  chars "export" ++ [More is_space] ++ chars "async" ++ [More is_space]
  ++ chars "function" ++ [More is_space; More is_word; Many not_brace]
  ++ chars "{".

(** Lines 30-45. *)
Definition add_import (filepath : string) (content : text) : text :=
  if negb (contains (lit "currency-utils") content) then
    match finditer import_pattern content with
    | [] => content
    | first :: others =>
        let insert_pos := snd (last others first) in
        let import_line :=
          if Py.str_in "/product-operations/" filepath
             || Py.str_in "/order-operations/" filepath
          then lit "import { getCurrencySymbol } from '../currency-utils';"
               ++ [newline]
          else lit "import { getCurrencySymbol } from './currency-utils';"
               ++ [newline] in
        firstn insert_pos content ++ import_line ++ skipn insert_pos content
    end
  else content.

Definition try_open : text := newline :: lit "  try {".

(** Lines 86-94: the body of one function, with the declaration when it
    needs one. *)
Definition declare (func_body : text) : text :=
  if existsb (N.eqb pound) func_body
     && negb (contains (lit "currencySymbol") func_body)
     && negb (contains (lit "getCurrencySymbol") (firstn 200 func_body))
  then
    if contains try_open (firstn 100 func_body) then
      let try_pos :=
        Z.to_nat (find try_open func_body 0 + Z.of_nat (length try_open)) in
      firstn try_pos func_body
      ++ (newline :: lit "    const currencySymbol = getCurrencySymbol(params);")
      ++ skipn try_pos func_body
    else
      (newline :: lit "  const currencySymbol = getCurrencySymbol(params);")
      ++ func_body
  else func_body.

(** Lines 82-83: where the function that starts at [func_start] ends. *)
Definition func_end_after (content : text) (func_start : nat) : nat :=
  let next_export :=
    find (newline :: lit "export async function") content func_start in
  if (next_export =? -1)%Z then length content else Z.to_nat next_export.

(** Lines 78-98: one turn of the loop over the matches, on [parts] and
    [last_end]. *)
Definition step (content : text) (acc : list text * nat) (m : nat * nat)
  : list text * nat :=
  let '(parts, last_end) := acc in
  let '(start, stop) := m in
  let func_end := func_end_after content stop in
  let func_body := slice stop func_end content in
  (parts ++ [slice last_end start content; slice start stop content;
             declare func_body],
   func_end).

(** Lines 30-104: what [fix_file] makes of the content it has read.  The
    nested [add_currency_var] of lines 51-73 is never called. *)
Definition patch (filepath : string) (original : text) : text :=
  let content := add_import filepath original in
  let '(parts, last_end) :=
    fold_left (step content) (finditer function_pattern content) ([], 0) in
  let parts := parts ++ [skipn last_end content] in
  replace pound (lit "${currencySymbol}") (concat parts).

End Patcher.

(** ** The files *)

Class FileSystem (F : Type) := {
  exists_ : string -> F -> bool;
  read_text : string -> F -> reply text;
  write_text : string -> text -> F -> reply unit * F
}.

Definition FILES_TO_FIX : list string :=
  [ "lib/chat/product-operations/stock-operations.ts";
    "lib/chat/order-operations/order-history.ts";
    "lib/chat/order-operations/order-refunds-cancellation.ts";
    "lib/chat/store-operations.ts";
    "lib/chat/analytics-operations.ts";
    "lib/chat/report-operations.ts";
    "lib/chat/woocommerce-tool-formatters.ts" ].

Section Files.

Variables is_space is_word : N -> bool.
Context {F : Type} {FS : FileSystem F}.

(** Lines 20-109. *)
Definition fix_file (filepath : string) (fs : F) : result (nat * string) * F :=
  match read_text filepath fs with
  | Raises msg => (Exc (Exception msg), fs)
  | Returns content =>
      let pound_count := count pound content in
      if (pound_count =? 0)%nat then (Ok (0, "No currency symbols found"), fs)
      else
        match write_text filepath (patch is_space is_word filepath content) fs with
        | (Returns _, fs') =>
            (Ok (pound_count,
                 ("Fixed " ++ Py.str_nat pound_count ++ " symbols")%string),
             fs')
        | (Raises msg, fs') => (Exc (Exception msg), fs')
        end
  end.

(** Lines 115-127: the loop of [main], on the file system, [total_fixed]
    and the printed lines. *)
Fixpoint fix_all (files : list string) (fs : F) (total_fixed : nat)
  (out : list string) : result nat * F * list string :=
  match files with
  | [] => (Ok total_fixed, fs, out)
  | filepath :: rest =>
      if negb (exists_ filepath fs)
      then fix_all rest fs total_fixed
             (out ++ [("❌ " ++ filepath ++ ": File not found")%string])
      else
        match fix_file filepath fs with
        | (Exc e, fs') => (Exc e, fs', out)
        | (Ok (count, message), fs') =>
            fix_all rest fs' (total_fixed + count)
              (out ++ [if (0 <? count)%nat
                       then ("✅ " ++ filepath ++ ": " ++ message)%string
                       else ("  " ++ filepath ++ ": " ++ message)%string])
        end
  end.

(** Lines 111-130. *)
Definition main (fs : F) : result unit * F * list string :=
  match fix_all FILES_TO_FIX fs 0
          [("🔧 Batch fixing currency symbols..." ++ nl)%string] with
  | (Exc e, fs', out) => (Exc e, fs', out)
  | (Ok total_fixed, fs', out) =>
      (Ok tt, fs',
       out ++ [(nl ++ "✅ Total fixed: " ++ Py.str_nat total_fixed
                ++ " currency symbols")%string;
               "⚠️  Manual review recommended for template literal syntax"])
  end.

(** What [main] needs of the files: a file that exists can be read; a
    write to a file that exists succeeds, is read back, and leaves every
    other path as it was. *)
Record lawful : Prop := {
  read_existing : forall p fs, exists_ p fs = true ->
    exists content, read_text p fs = Returns content;
  write_existing : forall p new fs, exists_ p fs = true ->
    fst (write_text p new fs) = Returns tt;
  read_written : forall p new fs, exists_ p fs = true ->
    read_text p (snd (write_text p new fs)) = Returns new;
  read_other : forall p q new fs, p <> q ->
    read_text q (snd (write_text p new fs)) = read_text q fs;
  exists_written : forall p q new fs, exists_ p fs = true ->
    exists_ q (snd (write_text p new fs)) = exists_ q fs
}.

(** The pound signs of the files of a list that exist. *)
Definition pounds_in (filepath : string) (fs : F) : nat :=
  match read_text filepath fs with
  | Returns content => count pound content
  | Raises _ => 0
  end.

Fixpoint pounds_of (files : list string) (fs : F) : nat :=
  match files with
  | [] => 0
  | filepath :: rest =>
      (if exists_ filepath fs then pounds_in filepath fs else 0)
      + pounds_of rest fs
  end.

End Files.

(** Files as a list of paths with their contents, the first entry of a
    path being the file. *)
Definition lookup (p : string) (fs : list (string * text)) : option text :=
  option_map snd (List.find (fun e => (fst e =? p)%string) fs).

#[export] Instance listed : FileSystem (list (string * text)) := {
  exists_ p fs := match lookup p fs with Some _ => true | None => false end;
  read_text p fs :=
    match lookup p fs with
    | Some content => Returns content
    | None => Raises "FileNotFoundError"
    end;
  write_text p new fs := (Returns tt, (p, new) :: fs)
}.

(** A file to run the patcher on. *)
Definition stock_operations : text :=
  lit "import { api } from '../api';" ++ [newline]
  ++ lit "import { format } from './format';" ++ [newline; newline]
  ++ lit "export async function getStock(params) {" ++ [newline]
  ++ lit "  try {" ++ [newline]
  ++ lit "    return `Price: " ++ [pound] ++ lit "${price}`;" ++ [newline]
  ++ lit "  } catch (e) { return null; }" ++ [newline]
  ++ lit "}" ++ [newline; newline]
  ++ lit "export async function getName(params) {" ++ [newline]
  ++ lit "  return params.name;" ++ [newline]
  ++ lit "}" ++ [newline].

(** A checkout that holds this one of the listed files. *)
Definition checkout : list (string * text) :=
  [("lib/chat/product-operations/stock-operations.ts", stock_operations)].

(** The index of the first occurrence of [sub] in [s]. *)
Fixpoint first_at (sub s : text) : option nat :=
  if starts_with sub s then Some 0
  else match s with
       | [] => None
       | _ :: s' => option_map S (first_at sub s')
       end.

(** Matches that follow one another from [lo] on, within [hi]. *)
Fixpoint chained (lo hi : nat) (ms : list (nat * nat)) : Prop :=
  match ms with
  | [] => True
  | (a, b) :: rest => lo <= a /\ a <= b /\ b <= hi /\ chained b hi rest
  end.

(** [a] is what is left of [b] when some of its elements are taken out. *)
Inductive embeds {A : Type} : list A -> list A -> Prop :=
| embeds_nil b : embeds [] b
| embeds_keep x a b : embeds a b -> embeds (x :: a) (x :: b)
| embeds_skip x a b : embeds a b -> embeds a (x :: b).

(** ASCII spaces and word characters, for running the patcher. *)
Definition ascii_space (c : N) : bool :=
  ((c =? 32) || ((9 <=? c) && (c <=? 13)))%N.
Definition ascii_word (c : N) : bool :=
  (((48 <=? c) && (c <=? 57)) || ((65 <=? c) && (c <=? 90))
   || ((97 <=? c) && (c <=? 122)) || (c =? 95))%N.

End Currency.

(** * Properties *)

Local Open Scope list_scope.

(** ** Transcripts and result sets *)

Lemma marks_app (a b : list output) : marks (a ++ b) = marks a ++ marks b.
Proof.
  induction a as [|o a IH]; simpl; [reflexivity|].
  destruct (mark_of o); simpl; now rewrite IH.
Qed.

Lemma logged_app (a b : list mark) : logged (a ++ b) = logged a ++ logged b.
Proof.
  induction a as [|[name ok|msg|] a IH]; simpl; now rewrite ?IH.
Qed.

Lemma crashes_app (a b : list mark) : crashes (a ++ b) = crashes a ++ crashes b.
Proof.
  induction a as [|[name ok|msg|] a IH]; simpl; now rewrite ?IH.
Qed.

Lemma logged_checks (l : list (string * bool)) : logged (map check_mark l) = l.
Proof.
  induction l as [|[name ok] l IH]; simpl; now rewrite ?IH.
Qed.

Lemma crashes_checks (l : list (string * bool)) : crashes (map check_mark l) = [].
Proof.
  induction l as [|[name ok] l IH]; simpl; auto.
Qed.

Lemma record_all_app (l1 l2 : list (string * bool)) (r : Results) :
  record_all (l1 ++ l2) r = record_all l2 (record_all l1 r).
Proof. apply fold_left_app. Qed.

Lemma record_consistent (name : string) (ok : bool) (r : Results) :
  consistent r -> consistent (record name ok r).
Proof.
  unfold consistent, record. intros H.
  destruct ok; simpl; rewrite length_app; simpl; lia.
Qed.

Lemma record_all_consistent (l : list (string * bool)) (r : Results) :
  consistent r -> consistent (record_all l r).
Proof.
  revert r. induction l as [|c l IH]; intros r H; simpl; [exact H|].
  apply IH, record_consistent, H.
Qed.

(** What a list of recorded checks leaves in the three fields. *)
Lemma record_all_fields (l : list (string * bool)) (r : Results) :
  passed (record_all l r) = passed r ++ map fst (filter snd l) /\
  failed (record_all l r) = failed r ++ map fst (filter (fun c => negb (snd c)) l) /\
  total (record_all l r) = total r + length l.
Proof.
  revert r. induction l as [|[name ok] l IH]; intros r; simpl.
  - rewrite !app_nil_r. auto.
  - destruct (IH (record name ok r)) as (Hp & Hf & Ht).
    unfold record_all in *. simpl. rewrite Hp, Hf, Ht.
    destruct ok; simpl; rewrite <- ?app_assoc; simpl; repeat split; auto; lia.
Qed.

(** ** Rules for the effects of the script *)

Section Rules.

Context {W : Type} {PW : Playwright W}.

Lemma extends_refl (s : state W) : extends [] s s.
Proof.
  repeat split; simpl; [now rewrite app_nil_r|].
  exists []. rewrite app_nil_r. auto.
Qed.

Lemma extends_trans (l1 l2 : list (string * bool)) (s s1 s2 : state W) :
  extends l1 s s1 -> extends l2 s1 s2 -> extends (l1 ++ l2) s s2.
Proof.
  intros (Hr1 & Hm1 & t1 & Ht1 & Hc1) (Hr2 & Hm2 & t2 & Ht2 & Hc2).
  repeat split.
  - now rewrite Hr2, Hr1, record_all_app.
  - now rewrite Hm2, Hm1, map_app, app_assoc.
  - exists (t1 ++ t2). split.
    + now rewrite Ht2, Ht1, app_assoc.
    + rewrite in_app_iff. tauto.
Qed.

Lemma extends_step (l : list (string * bool)) (s s1 s2 : state W) :
  extends [] s s1 -> extends l s1 s2 -> extends l s s2.
Proof. intros H1 H2. exact (extends_trans [] l s s1 s2 H1 H2). Qed.

Lemma extends_emit (o : output) (s : state W) :
  mark_of o = None -> extends [] s (emit o s).
Proof.
  intros Ho. repeat split; simpl.
  - rewrite marks_app. simpl. now rewrite Ho.
  - exists []. rewrite app_nil_r. auto.
Qed.

Lemma extends_set_js_errors (j : option (list string)) (s : state W) :
  extends [] s (set_js_errors j s).
Proof.
  repeat split; simpl; [now rewrite app_nil_r|].
  exists []. rewrite app_nil_r. auto.
Qed.

Lemma extends_on_event (s : state W) (ev : event) : extends [] s (on_event s ev).
Proof.
  destruct ev as [type text|err]; simpl.
  - now apply extends_emit.
  - destruct (js_errors s).
    + eapply extends_step; [|apply extends_set_js_errors].
      now apply extends_emit.
    + now apply extends_emit.
Qed.

Lemma extends_events (evs : list event) (s : state W) :
  extends [] s (fold_left on_event evs s).
Proof.
  revert s. induction evs as [|ev evs IH]; intros s; simpl.
  - apply extends_refl.
  - eapply extends_step; [apply extends_on_event | apply IH].
Qed.

Lemma extends_called (c : call) (w : W) (s : state W) :
  c <> CClose -> extends [] s (set_world w (traced c s)).
Proof.
  intros Hc. repeat split; simpl; [now rewrite app_nil_r|].
  exists [c]. split; [reflexivity|]. simpl. intuition congruence.
Qed.

Lemma silent_quiet {A} (m : M W A) : silent m -> quiet m.
Proof.
  intros H s. destruct (H s) as (He & a & Ha). split; [exact He|].
  intros e Hx. congruence.
Qed.

Lemma silent_ret {A} (a : A) : silent (ret a : M W A).
Proof. intros s. split; [apply extends_refl | now exists a]. Qed.

Lemma silent_print (line : string) :
  mark_of (Print line) = None -> silent (print (W:=W) line).
Proof. intros H s. split; [now apply extends_emit | now exists tt]. Qed.

Lemma silent_page_url : silent page_url.
Proof. intros s. split; [apply extends_refl | now eexists]. Qed.

Lemma silent_os_path_exists (path : string) : silent (os_path_exists path).
Proof. intros s. split; [apply extends_refl | now eexists]. Qed.

Lemma silent_read_js_errors : silent (read_js_errors (W:=W)).
Proof. intros s. split; [apply extends_refl | now eexists]. Qed.

Lemma silent_listen_for_errors : silent (listen_for_errors (W:=W)).
Proof. intros s. split; [apply extends_set_js_errors | now eexists]. Qed.

Lemma silent_bind {A B} (m : M W A) (f : A -> M W B) :
  silent m -> (forall a, silent (f a)) -> silent (bind m f).
Proof.
  intros Hm Hf s. unfold bind.
  destruct (Hm s) as (He & a & Ha). destruct (m s) as [r s1]. simpl in *.
  subst r. destruct (Hf a s1) as (He' & b & Hb). split; [|now exists b].
  eapply extends_step; eassumption.
Qed.

Lemma quiet_bind {A B} (m : M W A) (f : A -> M W B) :
  quiet m -> (forall a, quiet (f a)) -> quiet (bind m f).
Proof.
  intros Hm Hf s. unfold bind.
  destruct (Hm s) as (He & Hx). destruct (m s) as [[a|e] s1]; simpl in *.
  - destruct (Hf a s1) as (He' & Hx'). split; [|exact Hx'].
    eapply extends_step; eassumption.
  - split; [exact He|]. intros e' H. apply Hx. congruence.
Qed.

Lemma quiet_page_call {A} (c : call) (op : W -> reply A * list event * W) :
  c <> CClose -> quiet (page_call c op).
Proof.
  intros Hc s. unfold page_call.
  destruct (op (world s)) as [[r evs] w'].
  assert (He : extends [] s (fold_left on_event evs (set_world w' (traced c s)))).
  { eapply extends_step; [apply (extends_called c w' s Hc) | apply extends_events]. }
  destruct r as [a|msg]; simpl; (split; [exact He|]); intros e H.
  - discriminate.
  - exists msg. congruence.
Qed.

Lemma quiet_has (selector : string) : quiet (has selector).
Proof.
  apply quiet_bind; [now apply quiet_page_call|].
  intros n. apply silent_quiet, silent_ret.
Qed.

Lemma quiet_or_else (a : bool) (b : M W bool) : quiet b -> quiet (or_else a b).
Proof. destruct a; simpl; [intros _; apply silent_quiet, silent_ret | auto]. Qed.

Lemma quiet_and_then (a : bool) (b : M W bool) : quiet b -> quiet (and_then a b).
Proof. destruct a; simpl; [auto | intros _; apply silent_quiet, silent_ret]. Qed.

Lemma silent_and_then (a : bool) (b : M W bool) : silent b -> silent (and_then a b).
Proof. destruct a; simpl; [auto | intros _; apply silent_ret]. Qed.

Lemma silent_print_items (items : list string) :
  silent (print_items (W:=W) items).
Proof.
  induction items as [|item items IH]; simpl; [apply silent_ret|].
  apply silent_bind; [now apply silent_print | intros _; exact IH].
Qed.

Lemma logs_log_test (name : string) (ok : bool) (details : string) :
  logs (log_test (W:=W) name ok details) [name].
Proof.
  intros s. exists [(name, ok)]. split; [|reflexivity].
  unfold log_test. cbn [snd].
  set (s1 := emit _ (set_results _ s)).
  assert (H1 : extends [(name, ok)] s s1).
  { repeat split; simpl.
    - rewrite marks_app. destruct ok; reflexivity.
    - exists []. rewrite app_nil_r. auto. }
  destruct (Py.truthy details); [|exact H1].
  replace [(name, ok)] with ([(name, ok)] ++ []) by reflexivity.
  eapply extends_trans; [exact H1|]. now apply extends_emit.
Qed.

Lemma silent_logs {A} (m : M W A) : silent m -> logs m [].
Proof.
  intros H s. destruct (H s) as (He & a & Ha). exists []. split; [exact He|].
  now rewrite Ha.
Qed.

Lemma logs_after {A B} (m : M W A) (f : A -> M W B) (names : list string) :
  names <> [] -> quiet m -> (forall a, logs (f a) names) -> logs (bind m f) names.
Proof.
  intros Hn Hm Hf s. unfold bind.
  destruct (Hm s) as (He & Hx). destruct (m s) as [[a|e] s1]; simpl in *.
  - destruct (Hf a s1) as (l & He' & Hr). exists l. split; [|exact Hr].
    eapply extends_step; eassumption.
  - exists []. split; [exact He|]. split; [now apply Hx|].
    exists names. auto.
Qed.

Lemma logs_bind {A B} (m : M W A) (f : A -> M W B) (n1 n2 : list string) :
  logs m n1 -> (forall a, logs (f a) n2) -> logs (bind m f) (n1 ++ n2).
Proof.
  intros Hm Hf s. unfold bind.
  destruct (Hm s) as (l1 & He & Hr). destruct (m s) as [[a|e] s1]; simpl in *.
  - destruct (Hf a s1) as (l2 & He' & Hr'). exists (l1 ++ l2).
    split; [eapply extends_trans; eassumption|].
    rewrite map_app, Hr. destruct (fst (f a s1)) as [b|e'].
    + now rewrite Hr'.
    + destruct Hr' as (Hmsg & rest & Hne & Hn2). split; [exact Hmsg|].
      exists rest. split; [exact Hne|]. now rewrite Hn2, app_assoc.
  - exists l1. split; [exact He|].
    destruct Hr as (Hmsg & rest & Hne & Hn1). split; [exact Hmsg|].
    exists (rest ++ n2). split.
    + destruct rest; [congruence | discriminate].
    + now rewrite Hn1, app_assoc.
Qed.

End Rules.

Ltac silent_tac :=
  repeat (intros;
          first [ apply silent_ret
                | apply silent_print; reflexivity
                | apply silent_page_url
                | apply silent_os_path_exists
                | apply silent_read_js_errors
                | apply silent_listen_for_errors
                | apply silent_print_items
                | apply silent_and_then
                | apply silent_bind ]).

Ltac quiet_tac :=
  repeat (intros;
          first [ apply quiet_page_call; discriminate
                | apply quiet_has
                | apply quiet_or_else
                | apply quiet_and_then
                | solve [apply silent_quiet; silent_tac]
                | apply quiet_bind ]).

Ltac logs_tac :=
  repeat (intros;
          first [ apply logs_log_test
                | apply logs_after; [discriminate | solve [quiet_tac] | ] ]).

(** ** The check steps one by one *)

Section Steps.

Context {W : Type} {PW : Playwright W}.

Lemma logs_test_1 : logs test_1 ["Home page loads successfully"].
Proof. unfold test_1. logs_tac. Qed.

Lemma logs_test_2 : logs test_2 ["Login page has required form elements"].
Proof. unfold test_2. logs_tac. Qed.

Lemma logs_test_3 : logs test_3 ["Dashboard redirects unauthenticated users"].
Proof. unfold test_3. logs_tac. Qed.

Lemma logs_test_4 :
  logs test_4 ["Onboarding page exists with organization creation"].
Proof. unfold test_4. logs_tac. Qed.

Lemma logs_test_5 :
  logs test_5 ["API /auth/me endpoint responds";
               "API /organizations endpoint responds"].
Proof.
  unfold test_5.
  apply logs_after; [discriminate | solve [quiet_tac] | intros _].
  apply logs_after; [discriminate | solve [quiet_tac] | intros status].
  apply (logs_bind _ _ ["API /auth/me endpoint responds"]
           ["API /organizations endpoint responds"]).
  - apply logs_log_test.
  - logs_tac.
Qed.

Lemma logs_test_6 : logs test_6 ["Team page exists in routing"].
Proof. unfold test_6. logs_tac. Qed.

Lemma logs_test_7 : logs test_7 ["Dashboard has proper structure"].
Proof. unfold test_7. logs_tac. Qed.

Lemma quiet_probe (route : string) : quiet (probe route).
Proof. unfold probe. quiet_tac. Qed.

Lemma quiet_sweep (routes : list string) : quiet (sweep routes).
Proof.
  induction routes as [|route rest IH]; simpl.
  - apply silent_quiet, silent_ret.
  - apply quiet_bind; [apply quiet_probe|].
    intros [|]; simpl; [exact IH | apply silent_quiet, silent_ret].
Qed.

Lemma logs_test_8 : logs test_8 ["Middleware protects all dashboard routes"].
Proof.
  unfold test_8.
  apply logs_after; [discriminate | solve [quiet_tac] | intros _].
  apply logs_after; [discriminate | apply quiet_sweep | intros b].
  apply logs_log_test.
Qed.

Lemma quiet_visit (pages : list string) : quiet (visit pages).
Proof.
  induction pages as [|page rest IH]; simpl.
  - apply silent_quiet, silent_ret.
  - apply quiet_bind; [quiet_tac|]. intros _.
    apply quiet_bind; [quiet_tac|]. intros _. exact IH.
Qed.

Lemma logs_test_9 : logs test_9 ["No JavaScript errors on main pages"].
Proof.
  unfold test_9.
  apply logs_after; [discriminate | solve [quiet_tac] | intros _].
  apply logs_after; [discriminate | solve [quiet_tac] | intros _].
  apply logs_after; [discriminate | apply quiet_visit | intros _].
  apply logs_after; [discriminate | solve [quiet_tac] | intros errs].
  apply (logs_bind _ _ ["No JavaScript errors on main pages"] []).
  - apply logs_log_test.
  - intros _. apply silent_logs. destruct errs; silent_tac.
Qed.

Lemma logs_test_10 : logs test_10 ["Production build artifacts exist"].
Proof. unfold test_10. logs_tac. Qed.

(** The body of the [try] records the declared checks in the declared
    order, and a proper prefix of them when a step raises. *)
Lemma logs_checks : logs (checks PW) check_names.
Proof.
  unfold checks.
  apply logs_after; [discriminate | solve [quiet_tac] | intros _].
  apply logs_after; [discriminate | solve [quiet_tac] | intros _].
  apply logs_after; [discriminate | solve [quiet_tac] | intros _].
  apply (logs_bind _ _ [_] (_ :: _)); [apply logs_test_1 | intros _].
  apply (logs_bind _ _ [_] (_ :: _)); [apply logs_test_2 | intros _].
  apply (logs_bind _ _ [_] (_ :: _)); [apply logs_test_3 | intros _].
  apply (logs_bind _ _ [_] (_ :: _)); [apply logs_test_4 | intros _].
  apply (logs_bind _ _ [_; _] (_ :: _)); [apply logs_test_5 | intros _].
  apply (logs_bind _ _ [_] (_ :: _)); [apply logs_test_6 | intros _].
  apply (logs_bind _ _ [_] (_ :: _)); [apply logs_test_7 | intros _].
  apply (logs_bind _ _ [_] (_ :: _)); [apply logs_test_8 | intros _].
  apply (logs_bind _ _ [_] (_ :: _)); [apply logs_test_9 | intros _].
  apply logs_test_10.
Qed.

End Steps.

(** ** The report and the cleanup *)

Section Report.

Context {W : Type} {PW : Playwright W}.

Lemma emit_emit_all (o : output) (s : state W) : emit o s = emit_all [o] s.
Proof. reflexivity. Qed.

Lemma emit_all_emit_all (a b : list output) (s : state W) :
  emit_all b (emit_all a s) = emit_all (a ++ b) s.
Proof. unfold emit_all. simpl. now rewrite app_assoc. Qed.

Lemma print_items_run (items : list string) (s : state W) :
  print_items items s
  = (Ok tt, emit_all (map (fun item => Print ("   - " ++ item)%string) items) s).
Proof.
  revert s. induction items as [|item items IH]; intros s; simpl.
  - unfold ret, emit_all. rewrite app_nil_r. now destruct s.
  - unfold bind, print. rewrite IH, emit_emit_all, emit_all_emit_all.
    reflexivity.
Qed.

Lemma marks_items (items : list string) :
  marks (map (fun item => Print ("   - " ++ item)%string) items) = [].
Proof. induction items as [|item items IH]; simpl; auto. Qed.

Lemma report_run (s : state W) :
  exists added,
    report s
    = (Exc (SystemExit (if (0 <? length (failed (results s)))%nat then 1 else 0)%Z),
       emit_all added s) /\
    marks added = [Summarised] /\
    summarised (results s) added.
Proof.
  unfold report, bind, print, read_results, sys_exit, raise, ret.
  rewrite !emit_emit_all. cbn [results emit_all].
  destruct (passed (results s)) as [|p ps] eqn:Hp;
    destruct (failed (results s)) as [|f fs] eqn:Hf;
    rewrite ?print_items_run; cbn [length Nat.ltb Nat.leb];
    rewrite ?emit_emit_all, ?emit_all_emit_all;
    eexists; (split; [reflexivity|]); rewrite ?marks_app, ?marks_items.
  all: split; [reflexivity|].
  all: unfold summarised; rewrite ?Hp, ?Hf; cbn [length];
    repeat split; rewrite ?in_app_iff; simpl; tauto.
Qed.

End Report.

Ltac not_acquired :=
  simpl; repeat split; try (eexists; reflexivity); intuition discriminate.

(** ** The whole run *)

Section Run.

Context {W : Type} {PW : Playwright W}.

Lemma summarised_app (r : Results) (a b : list output) :
  summarised r b -> summarised r (a ++ b).
Proof.
  unfold summarised. rewrite !in_app_iff. tauto.
Qed.

Lemma events_frame (evs : list event) (s : state W) :
  trace (fold_left on_event evs s) = trace s /\
  results (fold_left on_event evs s) = results s /\
  marks (stdout (fold_left on_event evs s)) = marks (stdout s) /\
  incl (stdout s) (stdout (fold_left on_event evs s)).
Proof.
  revert s. induction evs as [|ev evs IH]; intros s; simpl.
  - repeat split. apply incl_refl.
  - destruct (IH (on_event s ev)) as (Ht & Hr & Hm & Hi).
    assert (Hs : trace (on_event s ev) = trace s /\
                 results (on_event s ev) = results s /\
                 marks (stdout (on_event s ev)) = marks (stdout s) /\
                 incl (stdout s) (stdout (on_event s ev))).
    { destruct ev as [type text|err]; simpl; [|destruct (js_errors s); simpl];
        rewrite marks_app; simpl; rewrite app_nil_r; repeat split;
        apply incl_appl, incl_refl. }
    destruct Hs as (Ht' & Hr' & Hm' & Hi').
    rewrite Ht, Hr, Hm. repeat split; auto.
    exact (incl_tran Hi' Hi).
Qed.

(** [browser.close()] is called; the report follows when it returns. *)
Lemma cleanup_run (s : state W) :
  exists s1,
    results s1 = results s /\
    marks (stdout s1) = marks (stdout s) /\
    incl (stdout s) (stdout s1) /\
    trace s1 = trace s ++ [CClose] /\
    ((exists msg, cleanup s = (Exc (Exception msg), s1)) \/
     (exists added,
        cleanup s
        = (Exc (SystemExit
                  (if (0 <? length (failed (results s)))%nat then 1 else 0)%Z),
           emit_all added s1) /\
        marks added = [Summarised] /\
        summarised (results s) added)).
Proof.
  unfold cleanup, bind, page_call.
  destruct (browser_close (world s)) as [[r evs] w'].
  set (s1 := fold_left on_event evs (set_world w' (traced CClose s))).
  destruct (events_frame evs (set_world w' (traced CClose s)))
    as (Ht & Hr & Hm & Hi).
  exists s1. repeat split; [exact Hr | exact Hm | exact Hi | exact Ht |].
  destruct r as [[]|msg].
  - right. destruct (report_run s1) as (added & Hrun & Hmarks & Hsum).
    exists added. fold s1 in Hr. rewrite Hr in Hrun, Hsum. auto.
  - left. now exists msg.
Qed.

Lemma guarded_spec (s0 : state W) :
  exists l tail t n,
    results (snd (guarded PW s0)) = record_all l (results s0) /\
    marks (stdout (snd (guarded PW s0)))
    = marks (stdout s0) ++ map check_mark l ++ map Crashed tail
      ++ repeat Summarised n /\
    (trace (snd (guarded PW s0)) = trace s0 ++ t ++ [CClose] /\ ~ In CClose t) /\
    ((tail = [] /\ map fst l = check_names) \/
     (exists msg rest,
        tail = [msg] /\ rest <> [] /\ check_names = map fst l ++ rest /\
        In (Print (error_line msg)) (stdout (snd (guarded PW s0))))) /\
    (((exists msg, fst (guarded PW s0) = Exc (Exception msg)) /\ n = 0) \/
     (fst (guarded PW s0)
      = Exc (SystemExit
               (if (0 <? length (failed (results (snd (guarded PW s0)))))%nat
                then 1 else 0)%Z) /\
      n = 1 /\
      summarised (results (snd (guarded PW s0))) (stdout (snd (guarded PW s0))))).
Proof.
  unfold guarded, try_except_finally.
  destruct (logs_checks s0) as (l & (Hr & Hm & t & Ht & Hc) & Hres).
  destruct (checks PW s0) as [r s1]. cbn [fst snd] in *.
  (* the state in which [finally] starts, and what the handler added *)
  assert (Hmid : exists tail s2 r',
             (match r with
              | Exc (Exception msg) => except_handler msg s1
              | _ => (r, s1)
              end) = (r', s2) /\
             results s2 = results s1 /\ trace s2 = trace s1 /\
             marks (stdout s2) = marks (stdout s1) ++ map Crashed tail /\
             ((tail = [] /\ map fst l = check_names) \/
              (exists msg rest,
                 tail = [msg] /\ rest <> [] /\
                 check_names = map fst l ++ rest /\
                 In (Print (error_line msg)) (stdout s2)))).
  { destruct r as [[]|e].
    - exists [], s1, (Ok tt). simpl. rewrite app_nil_r. auto 8.
    - destruct Hres as ((msg & ->) & rest & Hne & Hn).
      exists [msg]. eexists. eexists. split; [reflexivity|].
      simpl. repeat split.
      + rewrite !marks_app. simpl. now rewrite app_nil_r.
      + right. exists msg, rest. repeat split; auto.
        rewrite !in_app_iff. simpl. auto. }
  destruct Hmid as (tail & s2 & r' & -> & Hr2 & Ht2 & Hm2 & Hcase).
  destruct (cleanup_run s2) as (s3 & Hr3 & Hm3 & Hi3 & Ht3 & Hfin).
  exists l, tail, t.
  destruct Hfin as [(msg & ->)|(added & -> & Hadd & Hsum)]; cbn [fst snd].
  - exists 0. repeat split.
    + congruence.
    + rewrite Hm3, Hm2, Hm. simpl. now rewrite app_nil_r, <- app_assoc.
    + rewrite Ht3, Ht2, Ht. now rewrite <- app_assoc.
    + exact Hc.
    + destruct Hcase as [?|(m & rest & ? & ? & ? & Hin)]; [now left|].
      right. exists m, rest. repeat split; auto.
    + left. split; [now exists msg | reflexivity].
  - exists 1. cbn [emit_all results stdout trace]. repeat split.
    + congruence.
    + rewrite marks_app, Hadd, Hm3, Hm2, Hm. simpl.
      now rewrite <- !app_assoc.
    + rewrite Ht3, Ht2, Ht. now rewrite <- app_assoc.
    + exact Hc.
    + destruct Hcase as [?|(m & rest & ? & ? & ? & Hin)]; [now left|].
      right. exists m, rest. repeat split; auto.
      apply in_or_app. left. auto.
    + right. rewrite Hr3. split; [reflexivity|]. split; [reflexivity|].
      now apply summarised_app.
Qed.

(** Every run is of one of two kinds: the Session was not acquired and
    the exception left the script, or the guarded block ran. *)
Lemma run_spec (w : W) :
  (acquires w = false /\
   (exists msg, fst (test_organization_flows PW w) = Exc (Exception msg)) /\
   stdout (snd (test_organization_flows PW w)) = [] /\
   results (snd (test_organization_flows PW w)) = no_results /\
   ~ In CClose (trace (snd (test_organization_flows PW w)))) \/
  (acquires w = true /\
   exists l tail t n,
     results (snd (test_organization_flows PW w)) = record_all l no_results /\
     marks (stdout (snd (test_organization_flows PW w)))
     = map check_mark l ++ map Crashed tail ++ repeat Summarised n /\
     (trace (snd (test_organization_flows PW w)) = t ++ [CClose; CExit] /\
      ~ In CClose t) /\
     ((tail = [] /\ map fst l = check_names) \/
      (exists msg rest,
         tail = [msg] /\ rest <> [] /\ check_names = map fst l ++ rest /\
         In (Print (error_line msg))
           (stdout (snd (test_organization_flows PW w))))) /\
     (((exists msg, fst (test_organization_flows PW w) = Exc (Exception msg)) /\
       n = 0) \/
      (fst (test_organization_flows PW w)
       = Exc (SystemExit
                (if (0 <? length (failed (results
                                    (snd (test_organization_flows PW w)))))%nat
                 then 1 else 0)%Z) /\
       n = 1 /\
       summarised (results (snd (test_organization_flows PW w)))
         (stdout (snd (test_organization_flows PW w)))))).
Proof.
  unfold test_organization_flows, acquires, session, open_page, bind, acquire.
  cbn [world initial traced set_world].
  destruct (sync_playwright_enter w) as [[[]|m0] w0];
    cbn [world initial traced set_world]; [|left; not_acquired].
  destruct (chromium_launch w0) as [[[]|m1] w1];
    cbn [world initial traced set_world]; [|left; not_acquired].
  destruct (new_context w1) as [[[]|m2] w2];
    cbn [world initial traced set_world]; [|left; not_acquired].
  destruct (new_page w2) as [[[]|m3] w3];
    cbn [world initial traced set_world]; [|left; not_acquired].
  right. split; [reflexivity|].
  match goal with |- context [guarded PW ?s] => set (s0 := s) end.
  destruct (guarded_spec s0)
    as (l & tail & t & n & Hr & Hm & (Ht & Hc) & Hcase & Hfin).
  destruct (guarded PW s0) as [r s]. cbn [fst snd] in *.
  exists l, tail, ([CEnter; CLaunch; CNewContext; CNewPage] ++ t), n.
  cbn [results stdout trace set_world traced].
  repeat split; auto.
  - rewrite Ht. simpl. now rewrite <- app_assoc.
  - rewrite in_app_iff. simpl. intuition discriminate.
Qed.

End Run.

(** ** Every run *)

Lemma traceback_crashes (msg : string) (out : list output) :
  In (Traceback msg) out <-> In msg (crashes (marks out)).
Proof.
  induction out as [|o out IH]; simpl; [tauto|].
  destruct o as [line|msg']; cbn [marks].
  - assert (Hp : forall m, mark_of (Print line) <> Some (Crashed m)).
    { intros m. unfold mark_of. destruct (strip_prefix _ line); [discriminate|].
      destruct (strip_prefix _ line); [discriminate|].
      destruct (line =? summary_header)%string; discriminate. }
    destruct (mark_of (Print line)) as [[name ok|m|]|]; cbn [crashes];
      [|exfalso; now apply (Hp m)| |]; rewrite <- IH; intuition discriminate.
  - simpl. rewrite <- IH. intuition congruence.
Qed.

Lemma crashes_one (l : list (string * bool)) (tail : list string) (n : nat) :
  crashes (map check_mark l ++ map Crashed tail ++ repeat Summarised n) = tail.
Proof.
  rewrite !crashes_app, crashes_checks. simpl.
  assert (Hn : crashes (repeat Summarised n) = [])
    by (induction n; simpl; auto).
  rewrite Hn, app_nil_r.
  induction tail as [|msg tail IH]; simpl; now rewrite ?IH.
Qed.

Lemma logged_one (l : list (string * bool)) (tail : list string) (n : nat) :
  logged (map check_mark l ++ map Crashed tail ++ repeat Summarised n) = l.
Proof.
  rewrite !logged_app, logged_checks.
  assert (Hn : logged (repeat Summarised n) = [])
    by (induction n; simpl; auto).
  assert (Ht : logged (map Crashed tail) = [])
    by (induction tail; simpl; auto).
  now rewrite Hn, Ht, !app_nil_r.
Qed.

Lemma header_marked (out : list output) :
  In (Print summary_header) out <-> In Summarised (marks out).
Proof.
  induction out as [|o out IH]; simpl; [tauto|].
  destruct (mark_of o) as [m|] eqn:Hm.
  - simpl. rewrite <- IH. split; intros [H|H]; auto.
    + subst o. left. vm_compute in Hm. congruence.
    + subst m. left. destruct o as [line|msg]; [|discriminate].
      unfold mark_of in Hm.
      destruct (strip_prefix _ line); [discriminate|].
      destruct (strip_prefix _ line); [discriminate|].
      destruct (line =? summary_header)%string eqn:He; [|discriminate].
      apply String.eqb_eq in He. now subst.
  - rewrite <- IH. split; [intros [H|H]; auto | auto].
    subst o. vm_compute in Hm. discriminate.
Qed.

Lemma summarised_one (l : list (string * bool)) (tail : list string) (n : nat) :
  In Summarised (map check_mark l ++ map Crashed tail ++ repeat Summarised n) ->
  n <> 0.
Proof.
  rewrite !in_app_iff, !in_map_iff. intros [H|[H|H]].
  - destruct H as ([name ok] & H & _). discriminate.
  - destruct H as (msg & H & _). discriminate.
  - destruct n; [destruct H | discriminate].
Qed.

Section Claims.

Context {W : Type} (PW : Playwright W).

(** The summary is on the transcript exactly when the run leaves through
    the [sys.exit] that ends the report. *)
Lemma summary_exit (w : W) :
  In (Print summary_header) (stdout (snd (test_organization_flows PW w))) ->
  fst (test_organization_flows PW w)
  = Exc (SystemExit
           (if (0 <? length (failed (results
                               (snd (test_organization_flows PW w)))))%nat
            then 1 else 0)%Z) /\
  summarised (results (snd (test_organization_flows PW w)))
    (stdout (snd (test_organization_flows PW w))).
Proof.
  intros Hin.
  destruct (run_spec w) as [(_ & _ & Hout & _)
                           |(_ & l & tail & t & n & _ & Hm & _ & _ & Hfin)].
  - rewrite Hout in Hin. destruct Hin.
  - apply header_marked in Hin. rewrite Hm in Hin.
    apply summarised_one in Hin.
    destruct Hfin as [(_ & Hn)|(Hx & _ & Hsum)]; [congruence | auto].
Qed.

Lemma exit_summary (w : W) (code : Z) :
  fst (test_organization_flows PW w) = Exc (SystemExit code) ->
  In (Print summary_header) (stdout (snd (test_organization_flows PW w))).
Proof.
  intros Hexit.
  destruct (run_spec w) as [(_ & (msg & Hx) & _)
                           |(_ & l & tail & t & n & _ & _ & _ & _ & Hfin)];
    [congruence|].
  destruct Hfin as [((msg & Hx) & _)|(_ & _ & (Hsum & _))]; [congruence | auto].
Qed.

(** C3: [total == len(passed) + len(failed)] holds for the Result Set the
    run starts with, is kept by every [log_test], holds for the Result
    Set after each recorded check (the Result Set of a run is the fold of
    its logged checks, and the invariant holds after each prefix of them),
    and holds at report time. *)
Theorem results_consistent (w : W) :
  consistent no_results /\
  (forall name ok details (s : state W),
      consistent (results s) ->
      consistent (results (snd (log_test name ok details s)))) /\
  results (snd (test_organization_flows PW w))
  = record_all (logged (marks (stdout (snd (test_organization_flows PW w)))))
      no_results /\
  (forall k,
      consistent
        (record_all
           (firstn k (logged (marks (stdout (snd (test_organization_flows PW w))))))
           no_results)) /\
  consistent (results (snd (test_organization_flows PW w))).
Proof.
  assert (H0 : consistent no_results) by reflexivity.
  assert (Hfold : results (snd (test_organization_flows PW w))
                  = record_all
                      (logged (marks (stdout (snd (test_organization_flows PW w)))))
                      no_results).
  { destruct (run_spec w) as [(_ & _ & Hout & Hres & _)
                             |(_ & l & tail & t & n & Hres & Hm & _)].
    - now rewrite Hout, Hres.
    - now rewrite Hm, logged_one. }
  refine (conj H0 (conj _ (conj Hfold (conj _ _)))).
  - intros name ok details s Hs. unfold log_test. cbn [snd].
    destruct (Py.truthy details); simpl; now apply record_consistent.
  - intros k. now apply record_all_consistent.
  - rewrite Hfold. now apply record_all_consistent.
Qed.

(** C2: a run that reaches the summary leaves through [sys.exit]; its
    exit status is 0 exactly when [failed] is empty, and 1 otherwise. *)
Theorem exit_status_iff_no_failure (w : W) :
  In (Print summary_header) (stdout (snd (test_organization_flows PW w))) ->
  (exists code, fst (test_organization_flows PW w) = Exc (SystemExit code)) /\
  (exit_status (fst (test_organization_flows PW w)) = 0%Z <->
   failed (results (snd (test_organization_flows PW w))) = []) /\
  (exit_status (fst (test_organization_flows PW w)) = 1%Z <->
   failed (results (snd (test_organization_flows PW w))) <> []).
Proof.
  intros Hin. destruct (summary_exit w Hin) as (Hexit & _).
  rewrite Hexit. split; [eauto|]. simpl.
  destruct (failed (results (snd (test_organization_flows PW w)))); simpl;
    intuition congruence.
Qed.


(** C8: the PASS and FAIL lines of the transcript name the checks in the
    declared order, whatever their outcomes: they are a prefix of the
    declared list in every run, and the whole list when the Session was
    acquired and no step raised.  The lists [passed] and [failed] keep
    that order too. *)
Theorem checks_in_declared_order (w : W) :
  (exists rest,
      check_names
      = map fst (logged (marks (stdout (snd (test_organization_flows PW w)))))
        ++ rest) /\
  (acquires w = true ->
   crashes (marks (stdout (snd (test_organization_flows PW w)))) = [] ->
   map fst (logged (marks (stdout (snd (test_organization_flows PW w)))))
   = check_names) /\
  passed (results (snd (test_organization_flows PW w)))
  = map fst (filter snd
               (logged (marks (stdout (snd (test_organization_flows PW w)))))) /\
  failed (results (snd (test_organization_flows PW w)))
  = map fst (filter (fun c => negb (snd c))
               (logged (marks (stdout (snd (test_organization_flows PW w)))))).
Proof.
  destruct (run_spec w) as [(Hno & _ & Hout & Hres & _)
                           |(Hacq & l & tail & t & n & Hres & Hm & _ & Hcase & _)].
  - rewrite Hout, Hres. simpl. repeat split; [now exists check_names|].
    congruence.
  - rewrite Hm, logged_one, crashes_one, Hres.
    destruct (record_all_fields l no_results) as (Hp & Hf & _).
    repeat split; [| |exact Hp|exact Hf].
    + destruct Hcase as [(_ & Hl)|(msg & rest & _ & _ & Hl & _)].
      * exists []. now rewrite app_nil_r.
      * now exists rest.
    + intros _ Htail.
      destruct Hcase as [(_ & Hl)|(msg & rest & Hmsg & _)]; [exact Hl|].
      congruence.
Qed.

(** C9: a run whose Session was acquired and whose handler caught nothing
    has recorded exactly 11 checks, the two API checks of Test 5 among
    them, so [total] is 11; when the run reaches its summary, the summary
    says [Total Tests: 11]. *)
Theorem eleven_checks (w : W) :
  acquires w = true ->
  crashes (marks (stdout (snd (test_organization_flows PW w)))) = [] ->
  map fst (logged (marks (stdout (snd (test_organization_flows PW w)))))
  = check_names /\
  length (logged (marks (stdout (snd (test_organization_flows PW w))))) = 11 /\
  nth_error (map fst (logged (marks (stdout (snd (test_organization_flows PW w))))))
    4 = Some "API /auth/me endpoint responds" /\
  nth_error (map fst (logged (marks (stdout (snd (test_organization_flows PW w))))))
    5 = Some "API /organizations endpoint responds" /\
  total (results (snd (test_organization_flows PW w))) = 11 /\
  (In (Print summary_header) (stdout (snd (test_organization_flows PW w))) ->
   In (Print "Total Tests: 11") (stdout (snd (test_organization_flows PW w)))).
Proof.
  intros Hacq Hquiet.
  destruct (run_spec w) as [(Hno & _)
                           |(_ & l & tail & t & n & Hres & Hm & _ & Hcase & _)];
    [congruence|].
  rewrite Hm, crashes_one in Hquiet. rewrite Hm, logged_one.
  destruct Hcase as [(_ & Hl)|(msg & rest & Hmsg & _)]; [|congruence].
  assert (Hlen : length l = 11).
  { rewrite <- (length_map fst), Hl. reflexivity. }
  assert (Htot : total (results (snd (test_organization_flows PW w))) = 11).
  { rewrite Hres.
    destruct (record_all_fields l no_results) as (_ & _ & ->). now rewrite Hlen. }
  rewrite Hl. repeat split; auto.
  intros Hin. destruct (summary_exit w Hin) as (_ & (_ & Hsum & _)).
  now rewrite Htot in Hsum.
Qed.

End Claims.

Section Failures.

Context {W : Type} (PW : Playwright W).

(** A run whose Session is acquired is the guarded block, run from the
    state the [try] starts in, and the exit of the [with] block. *)
Lemma run_acquired (w : W) :
  acquires w = true ->
  test_organization_flows PW w
  = (fst (guarded PW (started w)),
     set_world (sync_playwright_exit (world (snd (guarded PW (started w)))))
       (traced CExit (snd (guarded PW (started w))))).
Proof.
  unfold test_organization_flows, acquires, started, session, bind.
  destruct (acquire CEnter sync_playwright_enter (initial w)) as [[[]|e] s];
    [|discriminate].
  destruct (open_page s) as [[[]|e] s0]; [|discriminate].
  intros _. cbn [fst snd]. destruct (guarded PW s0) as [r s']. reflexivity.
Qed.

(** An exception of the body reaches the handler, which prints its two
    reports and records nothing; the only call that follows is
    [browser.close()]. *)
Lemma guarded_caught (s0 : state W) (msg : string) :
  fst (checks PW s0) = Exc (Exception msg) ->
  results (snd (guarded PW s0)) = results (snd (checks PW s0)) /\
  trace (snd (guarded PW s0)) = trace (snd (checks PW s0)) ++ [CClose] /\
  In (Print (error_line msg)) (stdout (snd (guarded PW s0))) /\
  In (Traceback msg) (stdout (snd (guarded PW s0))).
Proof.
  intros H. unfold guarded, try_except_finally.
  destruct (checks PW s0) as [r s1]. cbn [fst snd] in *. subst r.
  set (s2 := emit (Traceback msg) (emit (Print (error_line msg)) s1)).
  assert (Hh : except_handler msg s1 = (Ok tt, s2)) by reflexivity.
  rewrite Hh.
  assert (Hin : In (Print (error_line msg)) (stdout s2) /\
                In (Traceback msg) (stdout s2)).
  { subst s2. cbn [emit stdout]. rewrite !in_app_iff. simpl. auto. }
  destruct Hin as (Hline & Htb).
  destruct (cleanup_run s2) as (s3 & Hr3 & _ & Hi3 & Ht3 & Hfin).
  destruct Hfin as [(m & ->)|(added & -> & _ & _)];
    cbn [fst snd emit_all results trace stdout];
    rewrite Hr3, Ht3; (split; [reflexivity|]); (split; [reflexivity|]).
  - split; apply Hi3; assumption.
  - split; apply in_or_app; left; apply Hi3; assumption.
Qed.

Lemma checks_in_turn (s : state W) :
  checks PW s = (banner ;; in_turn steps) s.
Proof.
  unfold checks, banner, steps. cbn [in_turn]. unfold bind, print, ret.
  cbv beta iota.
  destruct (test_1 _) as [[[]|?] ?]; cbv beta iota; [|reflexivity].
  destruct (test_2 _) as [[[]|?] ?]; cbv beta iota; [|reflexivity].
  destruct (test_3 _) as [[[]|?] ?]; cbv beta iota; [|reflexivity].
  destruct (test_4 _) as [[[]|?] ?]; cbv beta iota; [|reflexivity].
  destruct (test_5 _) as [[[]|?] ?]; cbv beta iota; [|reflexivity].
  destruct (test_6 _) as [[[]|?] ?]; cbv beta iota; [|reflexivity].
  destruct (test_7 _) as [[[]|?] ?]; cbv beta iota; [|reflexivity].
  destruct (test_8 _) as [[[]|?] ?]; cbv beta iota; [|reflexivity].
  destruct (test_9 _) as [[[]|?] ?]; cbv beta iota; [|reflexivity].
  destruct (test_10 _) as [[[]|?] ?]; reflexivity.
Qed.

Lemma in_turn_raises (ms : list (M W unit)) :
  forall k step s sk s1 e,
    nth_error ms k = Some step ->
    in_turn (firstn k ms) s = (Ok tt, sk) ->
    step sk = (Exc e, s1) ->
    in_turn ms s = (Exc e, s1).
Proof.
  induction ms as [|m rest IH]; intros [|k] step s sk s1 e Hk Hpre Hstep;
    try discriminate.
  - injection Hk as ->. injection Hpre as ->.
    cbn [in_turn]. unfold bind. now rewrite Hstep.
  - cbn [firstn in_turn] in Hpre. cbn [in_turn]. unfold bind in *.
    destruct (m s) as [[[]|e'] s']; [|discriminate].
    now apply (IH k step s' sk).
Qed.

(** A step that raises ends the body of the [try] with its exception. *)
Lemma checks_raise (k : nat) (step : M W unit) (s0 sk s1 : state W)
  (msg : string) :
  nth_error steps k = Some step ->
  (banner ;; in_turn (firstn k steps)) s0 = (Ok tt, sk) ->
  step sk = (Exc (Exception msg), s1) ->
  checks PW s0 = (Exc (Exception msg), s1).
Proof.
  intros Hk Hpre Hstep. rewrite checks_in_turn. unfold bind in *.
  destruct (banner s0) as [[[]|e] sb]; [|discriminate].
  now apply (in_turn_raises steps k step sb sk).
Qed.

(** What a caught exception leaves of a run. *)
Lemma caught_run (w : W) (msg : string) :
  acquires w = true ->
  fst (checks PW (started w)) = Exc (Exception msg) ->
  In (Print (error_line msg)) (stdout (snd (test_organization_flows PW w))) /\
  In (Traceback msg) (stdout (snd (test_organization_flows PW w))) /\
  crashes (marks (stdout (snd (test_organization_flows PW w)))) = [msg] /\
  results (snd (test_organization_flows PW w))
  = results (snd (checks PW (started w))) /\
  trace (snd (test_organization_flows PW w))
  = trace (snd (checks PW (started w))) ++ [CClose; CExit] /\
  (exists rest,
      rest <> [] /\
      check_names
      = map fst (logged (marks (stdout (snd (test_organization_flows PW w)))))
        ++ rest) /\
  total (results (snd (test_organization_flows PW w)))
  = length (logged (marks (stdout (snd (test_organization_flows PW w))))) /\
  failed (results (snd (test_organization_flows PW w)))
  = map fst (filter (fun c => negb (snd c))
               (logged (marks (stdout (snd (test_organization_flows PW w)))))).
Proof.
  intros Hacq Hraise.
  destruct (guarded_caught (started w) msg Hraise) as (Hres & Htr & Hline & Htb).
  pose proof (run_acquired w Hacq) as Hrun.
  assert (Hout : stdout (snd (test_organization_flows PW w))
                 = stdout (snd (guarded PW (started w))))
    by (rewrite Hrun; reflexivity).
  assert (Hres' : results (snd (test_organization_flows PW w))
                  = results (snd (guarded PW (started w))))
    by (rewrite Hrun; reflexivity).
  assert (Htr' : trace (snd (test_organization_flows PW w))
                 = trace (snd (guarded PW (started w))) ++ [CExit])
    by (rewrite Hrun; reflexivity).
  rewrite <- Hout in Hline, Htb.
  refine (conj Hline (conj Htb _)).
  pose proof Htb as Hin. apply traceback_crashes in Hin.
  destruct (run_spec w) as [(Hno & _)
                           |(_ & l & tail & t & n & Hrec & Hm & _ & Hcase & _)];
    [congruence|].
  rewrite Hm, crashes_one in Hin. rewrite Hm, logged_one, crashes_one.
  destruct Hcase as [(Htail & _)|(m & rest & Htail & Hne & Hl & _)];
    rewrite Htail in Hin; simpl in Hin; [tauto|].
  destruct Hin as [<-|[]].
  destruct (record_all_fields l no_results) as (_ & Hf & Htot).
  refine (conj Htail (conj _ (conj _ (conj _ (conj _ _))))).
  - now rewrite Hres', Hres.
  - rewrite Htr', Htr, <- app_assoc. reflexivity.
  - now exists rest.
  - now rewrite Hrec.
  - now rewrite Hrec.
Qed.

(** C1, as the script has it: the script has one handler, around all the
    steps.  When a step raises, after the steps before it have returned,
    the handler prints the message and the stack trace and records
    nothing: the Result Set of the run is the one the raising step left,
    with the checks logged before the error and no other.  None of the
    steps after it runs: the only calls that follow are [browser.close()]
    and the exit of the [with] block, and the logged checks are a proper
    prefix of the declared ones, which [total] and [failed] count. *)
Theorem raising_step_ends_checks (w : W) (k : nat) (step : M W unit)
  (sk s1 : state W) (msg : string) :
  acquires w = true ->
  nth_error steps k = Some step ->
  (banner ;; in_turn (firstn k steps)) (started w) = (Ok tt, sk) ->
  step sk = (Exc (Exception msg), s1) ->
  In (Print (error_line msg)) (stdout (snd (test_organization_flows PW w))) /\
  In (Traceback msg) (stdout (snd (test_organization_flows PW w))) /\
  crashes (marks (stdout (snd (test_organization_flows PW w)))) = [msg] /\
  results (snd (test_organization_flows PW w)) = results s1 /\
  trace (snd (test_organization_flows PW w)) = trace s1 ++ [CClose; CExit] /\
  (exists rest,
      rest <> [] /\
      check_names
      = map fst (logged (marks (stdout (snd (test_organization_flows PW w)))))
        ++ rest) /\
  total (results (snd (test_organization_flows PW w)))
  = length (logged (marks (stdout (snd (test_organization_flows PW w))))) /\
  failed (results (snd (test_organization_flows PW w)))
  = map fst (filter (fun c => negb (snd c))
               (logged (marks (stdout (snd (test_organization_flows PW w)))))).
Proof.
  intros Hacq Hk Hpre Hstep.
  pose proof (checks_raise k step (started w) sk s1 msg Hk Hpre Hstep) as Hc.
  assert (Hraise : fst (checks PW (started w)) = Exc (Exception msg))
    by now rewrite Hc.
  pose proof (caught_run w msg Hacq Hraise) as H.
  rewrite Hc in H. exact H.
Qed.


(** C5, as the script has it: Test 5 records two checks, so a run in
    which every check step passes has 11 passed checks.  When such a run
    reaches its summary, the transcript shows [Total Tests: 11],
    [Passed: 11], [Failed: 0] and the pass rate [100.0%], and the exit
    status is 0. *)
Theorem all_pass_summary (w : W) :
  In (Print summary_header) (stdout (snd (test_organization_flows PW w))) ->
  logged (marks (stdout (snd (test_organization_flows PW w))))
  = map (fun name => (name, true)) check_names ->
  In (Print "Total Tests: 11") (stdout (snd (test_organization_flows PW w))) /\
  In (Print "✅ Passed: 11") (stdout (snd (test_organization_flows PW w))) /\
  In (Print "❌ Failed: 0") (stdout (snd (test_organization_flows PW w))) /\
  In (Print (nl ++ "📈 Pass Rate: 100.0%")%string)
    (stdout (snd (test_organization_flows PW w))) /\
  exit_status (fst (test_organization_flows PW w)) = 0%Z.
Proof.
  intros Hin Hall. destruct (summary_exit PW w Hin) as (Hx & Hsum).
  destruct (run_spec w) as [(_ & _ & Hout & _)
                           |(_ & l & tail & t & n & Hres & Hm & _)].
  - rewrite Hout in Hall. discriminate.
  - rewrite Hm, logged_one in Hall. subst l.
    assert (Hr : results (snd (test_organization_flows PW w))
                 = mkResults check_names [] 11) by (rewrite Hres; reflexivity).
    rewrite Hr in Hx, Hsum. destruct Hsum as (_ & Htot & Hp & Hf & Hrate).
    assert (Hfmt : Py.format_1f (pass_rate (mkResults check_names [] 11))
                   = "100.0") by (vm_compute; reflexivity).
    rewrite Hfmt in Hrate.
    refine (conj Htot (conj Hp (conj Hf (conj Hrate _)))).
    now rewrite Hx.
Qed.

End Failures.

(** C1, as stated, fails when the API refuses the request of Test 5: the
    [get] raises, nothing is recorded as failed, and Test 6 never runs (its
    check is not logged and its page is never visited). *)
Lemma api_error_skips_later_checks :
  fst (fst (@request_get _ (Scripted.playwright Scripted.api_down)
              (base_url ++ "/api/auth/me")%string
              (base_url ++ "/onboarding")%string))
  = Raises "APIRequestContext.get: connect ECONNREFUSED" /\
  In (CRequestGet (base_url ++ "/api/auth/me")%string)
    (trace (snd (Scripted.run Scripted.api_down))) /\
  failed (results (snd (Scripted.run Scripted.api_down))) = [] /\
  total (results (snd (Scripted.run Scripted.api_down))) = 4 /\
  ~ In "Team page exists in routing"
      (map fst (logged (marks (stdout (snd (Scripted.run Scripted.api_down)))))) /\
  ~ In (CGoto (base_url ++ "/dashboard/team")%string)
      (trace (snd (Scripted.run Scripted.api_down))).
Proof.
  vm_compute. repeat split; try tauto; intuition discriminate.
Qed.



(** C5, as stated, fails on a healthy application: every check passes and
    the summary says [Passed: 11], not [Passed: 10]. *)
Lemma all_pass_is_eleven :
  logged (marks (stdout (snd (Scripted.run Scripted.healthy))))
  = map (fun name => (name, true)) check_names /\
  fst (Scripted.run Scripted.healthy) = Exc (SystemExit 0) /\
  In (Print "✅ Passed: 11") (stdout (snd (Scripted.run Scripted.healthy))) /\
  ~ In (Print "✅ Passed: 10") (stdout (snd (Scripted.run Scripted.healthy))).
Proof.
  vm_compute. repeat split; try tauto; intuition discriminate.
Qed.

(** ** The sweep of the protected routes *)

Section Sweep.

Context {W : Type} (PW : Playwright W).


Lemma has_email_input (s1 : state W) :
  has email_input s1
  = (match fst (fst (locator_count email_input (world s1))) with
     | Returns n => Ok (0 <? n)%Z
     | Raises msg => Exc (Exception msg)
     end,
     snd (has email_input s1)).
Proof.
  unfold has, bind, page_call, ret.
  destruct (locator_count email_input (world s1)) as [[[n|msg] evs] w'];
    reflexivity.
Qed.










End Sweep.

(** ** Two runs against the same responses *)

Section Determinism.

Context {W1 W2 : Type} (P1 : Playwright W1) (P2 : Playwright W2).
Variable R : W1 -> W2 -> Prop.
Hypothesis HR : same_responses P1 P2 R.

Notation "m1 ~ m2" := (same_run R m1 m2) (at level 70).

Lemma same_ret {A} (a : A) : ret a ~ ret a.
Proof. intros s1 s2 H. simpl. auto. Qed.

Lemma same_bind {A B} (m1 : M W1 A) (m2 : M W2 A)
  (f1 : A -> M W1 B) (f2 : A -> M W2 B) :
  m1 ~ m2 -> (forall a, f1 a ~ f2 a) -> bind m1 f1 ~ bind m2 f2.
Proof.
  intros Hm Hf s1 s2 Hs. unfold bind.
  destruct (Hm s1 s2 Hs) as (Hfst & Hsnd).
  destruct (m1 s1) as [r1 s1'], (m2 s2) as [r2 s2']. simpl in *. subst r2.
  destruct r1 as [a|e]; [now apply Hf | auto].
Qed.

Ltac same_state_tac :=
  let Hw := fresh in let Hr := fresh in let Ho := fresh in
  let Hj := fresh in let Ht := fresh in
  intros ? ? (Hw & Hr & Ho & Hj & Ht); unfold same_state; simpl;
  rewrite ?Hr, ?Ho, ?Hj, ?Ht; repeat split; auto.

Lemma same_emit (o : output) (s1 : state W1) (s2 : state W2) :
  same_state R s1 s2 -> same_state R (emit o s1) (emit o s2).
Proof. revert s1 s2. same_state_tac. Qed.

Lemma same_print (line : string) : print line ~ print line.
Proof. intros s1 s2 H. split; [reflexivity | now apply same_emit]. Qed.

Lemma same_log_test (name : string) (ok : bool) (details : string) :
  log_test name ok details ~ log_test name ok details.
Proof.
  intros s1 s2 H. split; [reflexivity|]. unfold log_test. cbn [snd].
  assert (H' : same_state R (set_results (record name ok (results s1)) s1)
                 (set_results (record name ok (results s2)) s2)).
  { revert s1 s2 H. same_state_tac. }
  destruct (Py.truthy details); repeat apply same_emit; exact H'.
Qed.

Lemma same_listen_for_errors : listen_for_errors ~ listen_for_errors.
Proof. intros s1 s2 H. split; [reflexivity|]. revert s1 s2 H. same_state_tac. Qed.

Lemma same_read_js_errors : read_js_errors ~ read_js_errors.
Proof.
  intros s1 s2 H. split; [|exact H].
  destruct H as (_ & _ & _ & Hj & _). simpl. now rewrite Hj.
Qed.

Lemma same_read_results : read_results ~ read_results.
Proof.
  intros s1 s2 H. split; [|exact H].
  destruct H as (_ & Hr & _). simpl. now rewrite Hr.
Qed.

Lemma same_page_url : page_url (PW := P1) ~ page_url (PW := P2).
Proof.
  intros s1 s2 H. split; [|exact H]. simpl.
  destruct H as (Hw & _). now rewrite (sr_url _ _ _ HR _ _ Hw).
Qed.

Lemma same_os_path_exists (path : string) :
  os_path_exists (PW := P1) path ~ os_path_exists (PW := P2) path.
Proof.
  intros s1 s2 H. split; [|exact H]. simpl.
  destruct H as (Hw & _). now rewrite (sr_path_exists _ _ _ HR _ _ _ Hw).
Qed.

Lemma same_on_event (ev : event) (s1 : state W1) (s2 : state W2) :
  same_state R s1 s2 -> same_state R (on_event s1 ev) (on_event s2 ev).
Proof.
  intros H. destruct ev as [type text|err]; simpl; [now apply same_emit|].
  destruct H as (Hw & Hr & Ho & Hj & Ht). rewrite Hj.
  destruct (js_errors s2) eqn:Hj2; unfold same_state; simpl;
    rewrite ?Hr, ?Ho, ?Ht; repeat split; auto; congruence.
Qed.

Lemma same_events (evs : list event) (s1 : state W1) (s2 : state W2) :
  same_state R s1 s2 ->
  same_state R (fold_left on_event evs s1) (fold_left on_event evs s2).
Proof.
  revert s1 s2. induction evs as [|ev evs IH]; intros s1 s2 H; simpl; [exact H|].
  now apply IH, same_on_event.
Qed.

Lemma same_page_call {A} (c : call)
  (op1 : W1 -> reply A * list event * W1)
  (op2 : W2 -> reply A * list event * W2) :
  (forall w1 w2, R w1 w2 -> same_answer R (op1 w1) (op2 w2)) ->
  page_call c op1 ~ page_call c op2.
Proof.
  intros Hop s1 s2 H. unfold page_call.
  destruct (Hop _ _ (proj1 H)) as (Hr & Hevs & Hw).
  destruct (op1 (world s1)) as [[r1 evs1] w1'],
           (op2 (world s2)) as [[r2 evs2] w2']. simpl in *. subst r2 evs2.
  assert (H' : same_state R (fold_left on_event evs1 (set_world w1' (traced c s1)))
                 (fold_left on_event evs1 (set_world w2' (traced c s2)))).
  { apply same_events. destruct H as (_ & Hr & Ho & Hj & Ht).
    unfold same_state. simpl. rewrite Hr, Ho, Hj, Ht. repeat split; auto. }
  destruct r1; simpl; auto.
Qed.

Lemma same_acquire (c : call) (op1 : W1 -> reply unit * W1)
  (op2 : W2 -> reply unit * W2) :
  (forall w1 w2, R w1 w2 -> same_start R (op1 w1) (op2 w2)) ->
  acquire c op1 ~ acquire c op2.
Proof.
  intros Hop s1 s2 H. unfold acquire.
  destruct (Hop _ _ (proj1 H)) as (Hr & Hw).
  destruct (op1 (world s1)) as [r1 w1'], (op2 (world s2)) as [r2 w2'].
  simpl in *. subst r2.
  assert (H' : same_state R (set_world w1' (traced c s1))
                 (set_world w2' (traced c s2))).
  { destruct H as (_ & Hr & Ho & Hj & Ht).
    unfold same_state. simpl. rewrite Hr, Ho, Hj, Ht. repeat split; auto. }
  destruct r1 as [[]|msg]; simpl; auto.
Qed.

Lemma same_or_else (a : bool) (b1 : M W1 bool) (b2 : M W2 bool) :
  b1 ~ b2 -> or_else a b1 ~ or_else a b2.
Proof. destruct a; simpl; [intros _; apply same_ret | auto]. Qed.

Lemma same_and_then (a : bool) (b1 : M W1 bool) (b2 : M W2 bool) :
  b1 ~ b2 -> and_then a b1 ~ and_then a b2.
Proof. destruct a; simpl; [auto | intros _; apply same_ret]. Qed.

Lemma same_print_items (items : list string) :
  print_items items ~ print_items items.
Proof.
  induction items as [|item items IH]; simpl; [apply same_ret|].
  apply same_bind; [apply same_print | intros _; exact IH].
Qed.

Lemma same_sys_exit (code : Z) : sys_exit code ~ sys_exit code.
Proof. intros s1 s2 H. simpl. auto. Qed.

Ltac same_op :=
  first [ exact (sr_goto _ _ _ HR _)
        | exact (sr_screenshot _ _ _ HR _)
        | exact (sr_title _ _ _ HR)
        | exact (sr_locator_count _ _ _ HR _)
        | exact (sr_content _ _ _ HR)
        | exact (sr_request_get _ _ _ HR _)
        | exact (sr_wait_for_timeout _ _ _ HR _)
        | exact (sr_browser_close _ _ _ HR) ].

Ltac same_tac :=
  repeat (intros;
          first [ apply same_ret
                | apply same_print
                | apply same_log_test
                | apply same_page_url
                | apply same_os_path_exists
                | apply same_listen_for_errors
                | apply same_read_js_errors
                | apply same_read_results
                | apply same_print_items
                | apply same_sys_exit
                | apply same_or_else
                | apply same_and_then
                | apply same_page_call; same_op
                | apply same_bind
                | match goal with
                  | |- same_run _ (match ?x with _ => _ end) _ => destruct x
                  end ]).

Lemma same_test_1 : test_1 (PW := P1) ~ test_1 (PW := P2).
Proof. unfold test_1, page_goto, page_screenshot, page_title. same_tac. Qed.

Lemma same_test_2 : test_2 (PW := P1) ~ test_2 (PW := P2).
Proof. unfold test_2, page_goto, page_screenshot, has. same_tac. Qed.

Lemma same_test_3 : test_3 (PW := P1) ~ test_3 (PW := P2).
Proof. unfold test_3, page_goto, page_screenshot, has. same_tac. Qed.

Lemma same_test_4 : test_4 (PW := P1) ~ test_4 (PW := P2).
Proof.
  unfold test_4, page_goto, page_screenshot, page_content, has. same_tac.
Qed.

Lemma same_test_5 : test_5 (PW := P1) ~ test_5 (PW := P2).
Proof. unfold test_5, page_request_get. same_tac. Qed.

Lemma same_test_6 : test_6 (PW := P1) ~ test_6 (PW := P2).
Proof. unfold test_6, page_goto, page_screenshot, has. same_tac. Qed.

Lemma same_test_7 : test_7 (PW := P1) ~ test_7 (PW := P2).
Proof.
  unfold test_7, page_goto, page_screenshot, page_wait_for_timeout, has.
  same_tac.
Qed.

Lemma same_probe (route : string) :
  probe (PW := P1) route ~ probe (PW := P2) route.
Proof. unfold probe, page_goto, has. same_tac. Qed.

Lemma same_sweep (routes : list string) :
  sweep (PW := P1) routes ~ sweep (PW := P2) routes.
Proof.
  induction routes as [|route rest IH]; simpl; [apply same_ret|].
  apply same_bind; [apply same_probe|].
  intros [|]; simpl; [exact IH | apply same_ret].
Qed.

Lemma same_test_8 : test_8 (PW := P1) ~ test_8 (PW := P2).
Proof.
  unfold test_8. apply same_bind; [apply same_print | intros _].
  apply same_bind; [apply same_sweep | intros ok]. apply same_log_test.
Qed.

Lemma same_visit (pages : list string) :
  visit (PW := P1) pages ~ visit (PW := P2) pages.
Proof.
  induction pages as [|page rest IH]; simpl; [apply same_ret|].
  unfold page_goto, page_wait_for_timeout.
  apply same_bind; [apply same_page_call; same_op | intros _].
  apply same_bind; [apply same_page_call; same_op | intros _]. exact IH.
Qed.

Lemma same_test_9 : test_9 (PW := P1) ~ test_9 (PW := P2).
Proof.
  unfold test_9. apply same_bind; [apply same_print | intros _].
  apply same_bind; [apply same_listen_for_errors | intros _].
  apply same_bind; [apply same_visit | intros _].
  same_tac.
Qed.

Lemma same_test_10 : test_10 (PW := P1) ~ test_10 (PW := P2).
Proof. unfold test_10. same_tac. Qed.

Lemma same_checks : checks P1 ~ checks P2.
Proof.
  unfold checks.
  repeat (apply same_bind; [apply same_print | intros _]).
  apply same_bind; [apply same_test_1 | intros _].
  apply same_bind; [apply same_test_2 | intros _].
  apply same_bind; [apply same_test_3 | intros _].
  apply same_bind; [apply same_test_4 | intros _].
  apply same_bind; [apply same_test_5 | intros _].
  apply same_bind; [apply same_test_6 | intros _].
  apply same_bind; [apply same_test_7 | intros _].
  apply same_bind; [apply same_test_8 | intros _].
  apply same_bind; [apply same_test_9 | intros _].
  apply same_test_10.
Qed.

Lemma same_except_handler (msg : string) :
  except_handler msg ~ except_handler msg.
Proof.
  unfold except_handler. apply same_bind; [apply same_print | intros _].
  intros s1 s2 H. split; [reflexivity | now apply same_emit].
Qed.

Lemma same_report : report ~ report.
Proof. unfold report. same_tac. Qed.

Lemma same_cleanup : cleanup (PW := P1) ~ cleanup (PW := P2).
Proof.
  unfold cleanup. apply same_bind; [|intros _; apply same_report].
  apply same_page_call. same_op.
Qed.

Lemma same_try (b1 : M W1 unit) (b2 : M W2 unit)
  (h1 : string -> M W1 unit) (h2 : string -> M W2 unit)
  (f1 : M W1 unit) (f2 : M W2 unit) :
  b1 ~ b2 -> (forall msg, h1 msg ~ h2 msg) -> f1 ~ f2 ->
  try_except_finally b1 h1 f1 ~ try_except_finally b2 h2 f2.
Proof.
  intros Hb Hh Hf s1 s2 H. unfold try_except_finally.
  destruct (Hb _ _ H) as (Hr & Hs).
  destruct (b1 s1) as [r1 s1'], (b2 s2) as [r2 s2']. simpl in *. subst r2.
  assert (Hmid : fst (match r1 with
                      | Exc (Exception msg) => h1 msg s1'
                      | _ => (r1, s1')
                      end)
                 = fst (match r1 with
                        | Exc (Exception msg) => h2 msg s2'
                        | _ => (r1, s2')
                        end) /\
                 same_state R
                   (snd (match r1 with
                         | Exc (Exception msg) => h1 msg s1'
                         | _ => (r1, s1')
                         end))
                   (snd (match r1 with
                         | Exc (Exception msg) => h2 msg s2'
                         | _ => (r1, s2')
                         end))).
  { destruct r1 as [a|[msg|code]]; simpl; auto. now apply Hh. }
  destruct Hmid as (Hr' & Hs').
  destruct (match r1 with Exc (Exception msg) => h1 msg s1' | _ => (r1, s1') end)
    as [r1' t1].
  destruct (match r1 with Exc (Exception msg) => h2 msg s2' | _ => (r1, s2') end)
    as [r2' t2].
  simpl in *. subst r2'.
  destruct (Hf _ _ Hs') as (Hrf & Hsf).
  destruct (f1 t1) as [rf1 u1], (f2 t2) as [rf2 u2]. simpl in *. subst rf2.
  destruct rf1; simpl; auto.
Qed.

Lemma same_session : session P1 ~ session P2.
Proof.
  unfold session, open_page, guarded.
  apply same_bind; [|intros _; apply same_try;
                      [apply same_checks | apply same_except_handler
                      | apply same_cleanup]].
  apply same_bind; [apply same_acquire, (sr_launch _ _ _ HR) | intros _].
  apply same_bind; [apply same_acquire, (sr_new_context _ _ _ HR) | intros _].
  apply same_acquire, (sr_new_page _ _ _ HR).
Qed.

(** Both runs end alike and leave the same Result Set and transcript. *)
Lemma same_flows (w1 : W1) (w2 : W2) :
  R w1 w2 ->
  fst (test_organization_flows P1 w1) = fst (test_organization_flows P2 w2) /\
  same_state R (snd (test_organization_flows P1 w1))
    (snd (test_organization_flows P2 w2)).
Proof.
  intros Hw. unfold test_organization_flows.
  assert (H0 : same_state R (initial w1) (initial w2))
    by (unfold same_state; simpl; auto).
  destruct (same_acquire CEnter _ _ (sr_enter _ _ _ HR) _ _ H0) as (Hr & Hs).
  destruct (acquire CEnter sync_playwright_enter (initial w1)) as [r1 s1],
           (acquire CEnter sync_playwright_enter (initial w2)) as [r2 s2].
  simpl in *. subst r2. destruct r1 as [a|e]; [|auto].
  destruct (same_session _ _ Hs) as (Hr' & Hs').
  destruct (session P1 s1) as [r1' t1], (session P2 s2) as [r2' t2].
  simpl in *. split; [exact Hr'|].
  destruct Hs' as (Hw' & Hres & Hout & Hj & Ht).
  unfold same_state. simpl. rewrite Hres, Hout, Hj, Ht.
  repeat split. now apply (sr_exit _ _ _ HR).
Qed.

(** C10: two runs against worlds that give the same responses record the
    same checks, by name and in the same order, with the same outcomes,
    and end with the same Result Set and exit status. *)
Theorem reruns_agree (w1 : W1) (w2 : W2) :
  R w1 w2 ->
  map fst (logged (marks (stdout (snd (test_organization_flows P1 w1)))))
  = map fst (logged (marks (stdout (snd (test_organization_flows P2 w2))))) /\
  logged (marks (stdout (snd (test_organization_flows P1 w1))))
  = logged (marks (stdout (snd (test_organization_flows P2 w2)))) /\
  results (snd (test_organization_flows P1 w1))
  = results (snd (test_organization_flows P2 w2)) /\
  exit_status (fst (test_organization_flows P1 w1))
  = exit_status (fst (test_organization_flows P2 w2)).
Proof.
  intros Hw. destruct (same_flows w1 w2 Hw) as (Hr & _ & Hres & Hout & _).
  now rewrite Hr, Hres, Hout.
Qed.

End Determinism.

(** ** Concrete runs *)

Lemma results_consistent_witness :
  consistent (results (snd (log_test "Team page exists in routing" false ""
                              (initial (W := string) "about:blank")))) /\
  consistent (results (snd (Scripted.run Scripted.settings_open))).
Proof.
  destruct (results_consistent (Scripted.playwright Scripted.settings_open) "")
    as (_ & Hlog & _ & _ & Hfinal).
  split; [apply Hlog; reflexivity | exact Hfinal].
Defined.

Lemma exit_status_iff_no_failure_witness :
  In (Print summary_header) (stdout (snd (Scripted.run Scripted.settings_open))) /\
  exit_status (fst (Scripted.run Scripted.settings_open)) = 1%Z /\
  failed (results (snd (Scripted.run Scripted.settings_open))) <> [].
Proof.
  assert (H : In (Print summary_header)
                (stdout (snd (Scripted.run Scripted.settings_open))))
    by (vm_compute; tauto).
  assert (Hone : exit_status (fst (Scripted.run Scripted.settings_open)) = 1%Z)
    by (vm_compute; reflexivity).
  destruct (exit_status_iff_no_failure
              (Scripted.playwright Scripted.settings_open) "" H)
    as (_ & _ & Hiff).
  exact (conj H (conj Hone (proj1 Hiff Hone))).
Defined.


Lemma checks_in_declared_order_witness :
  acquires (PW := Scripted.playwright Scripted.settings_open) "" = true /\
  crashes (marks (stdout (snd (Scripted.run Scripted.settings_open)))) = [] /\
  map fst (logged (marks (stdout (snd (Scripted.run Scripted.settings_open)))))
  = check_names.
Proof.
  assert (H : acquires (PW := Scripted.playwright Scripted.settings_open) "" = true)
    by reflexivity.
  assert (Hq : crashes (marks (stdout (snd (Scripted.run Scripted.settings_open))))
               = []) by (vm_compute; reflexivity).
  destruct (checks_in_declared_order
              (Scripted.playwright Scripted.settings_open) "")
    as (_ & Hall & _).
  exact (conj H (conj Hq (Hall H Hq))).
Defined.

Lemma eleven_checks_witness :
  acquires (PW := Scripted.playwright Scripted.settings_open) "" = true /\
  crashes (marks (stdout (snd (Scripted.run Scripted.settings_open)))) = [] /\
  total (results (snd (Scripted.run Scripted.settings_open))) = 11 /\
  In (Print "Total Tests: 11") (stdout (snd (Scripted.run Scripted.settings_open))).
Proof.
  assert (H : acquires (PW := Scripted.playwright Scripted.settings_open) "" = true)
    by reflexivity.
  assert (Hq : crashes (marks (stdout (snd (Scripted.run Scripted.settings_open))))
               = []) by (vm_compute; reflexivity).
  assert (Hin : In (Print summary_header)
                  (stdout (snd (Scripted.run Scripted.settings_open))))
    by (vm_compute; tauto).
  destruct (eleven_checks (Scripted.playwright Scripted.settings_open) "" H Hq)
    as (_ & _ & _ & _ & Htot & Hline).
  exact (conj H (conj Hq (conj Htot (Hline Hin)))).
Defined.

Lemma raising_step_ends_checks_witness :
  let PW := Scripted.playwright Scripted.api_down in
  let sk := snd ((banner ;; in_turn (firstn 4 (steps (PW := PW))))
                   (started (PW := PW) "")) in
  test_5 (PW := PW) sk
  = (Exc (Exception "APIRequestContext.get: connect ECONNREFUSED"),
     snd (test_5 (PW := PW) sk)) /\
  In (Traceback "APIRequestContext.get: connect ECONNREFUSED")
    (stdout (snd (Scripted.run Scripted.api_down))) /\
  results (snd (Scripted.run Scripted.api_down))
  = results (snd (test_5 (PW := PW) sk)) /\
  trace (snd (Scripted.run Scripted.api_down))
  = trace (snd (test_5 (PW := PW) sk)) ++ [CClose; CExit].
Proof.
  cbn zeta.
  set (PW := Scripted.playwright Scripted.api_down).
  set (sk := snd ((banner ;; in_turn (firstn 4 (steps (PW := PW))))
                    (started (PW := PW) ""))).
  assert (Hacq : acquires (PW := PW) "" = true) by reflexivity.
  assert (Hk : nth_error (steps (PW := PW)) 4 = Some (test_5 (PW := PW)))
    by reflexivity.
  assert (Hpre : (banner ;; in_turn (firstn 4 (steps (PW := PW))))
                   (started (PW := PW) "")
                 = (Ok tt, sk))
    by (vm_compute; reflexivity).
  assert (Hstep : test_5 (PW := PW) sk
                  = (Exc (Exception "APIRequestContext.get: connect ECONNREFUSED"),
                     snd (test_5 (PW := PW) sk)))
    by (vm_compute; reflexivity).
  destruct (raising_step_ends_checks PW "" 4 _ sk _ _ Hacq Hk Hpre Hstep)
    as (_ & Htb & _ & Hres & Htr & _).
  exact (conj Hstep (conj Htb (conj Hres Htr))).
Defined.


Lemma all_pass_summary_witness :
  In (Print summary_header) (stdout (snd (Scripted.run Scripted.healthy))) /\
  logged (marks (stdout (snd (Scripted.run Scripted.healthy))))
  = map (fun name => (name, true)) check_names /\
  In (Print "✅ Passed: 11") (stdout (snd (Scripted.run Scripted.healthy))) /\
  In (Print (nl ++ "📈 Pass Rate: 100.0%")%string)
    (stdout (snd (Scripted.run Scripted.healthy))).
Proof.
  assert (H : In (Print summary_header)
                (stdout (snd (Scripted.run Scripted.healthy))))
    by (vm_compute; tauto).
  assert (Hall : logged (marks (stdout (snd (Scripted.run Scripted.healthy))))
                 = map (fun name => (name, true)) check_names)
    by (vm_compute; reflexivity).
  destruct (all_pass_summary (Scripted.playwright Scripted.healthy) "" H Hall)
    as (_ & Hp & _ & Hrate & _).
  exact (conj H (conj Hall (conj Hp Hrate))).
Defined.


Lemma counting_same_responses {W} (P : Playwright W) :
  same_responses P (Scripted.counting P) (fun w wn => w = fst wn).
Proof.
  constructor; intros; subst; unfold same_start, same_answer; simpl; auto.
Defined.

Lemma reruns_agree_witness :
  logged (marks (stdout (snd (Scripted.run Scripted.settings_open))))
  = logged (marks (stdout (snd (test_organization_flows
                                  (Scripted.counting
                                     (Scripted.playwright Scripted.settings_open))
                                  ("", 0))))) /\
  exit_status (fst (Scripted.run Scripted.settings_open))
  = exit_status (fst (test_organization_flows
                        (Scripted.counting
                           (Scripted.playwright Scripted.settings_open))
                        ("", 0))).
Proof.
  destruct (reruns_agree _ _ _
              (counting_same_responses (Scripted.playwright Scripted.settings_open))
              "" ("", 0) eq_refl) as (_ & Hlog & _ & Hexit).
  split; [exact Hlog | exact Hexit].
Defined.

(** * More about every run *)

Lemma prefix_names (A : Type) (l rest full : list A) :
  full = l ++ rest -> NoDup full -> NoDup l /\ incl l full /\ length l <= length full.
Proof.
  intros -> Hnd. split; [|split].
  - now apply NoDup_app_remove_r in Hnd.
  - apply incl_appl, incl_refl.
  - rewrite length_app. lia.
Qed.

Lemma split_by_outcome (l : list (string * bool)) :
  NoDup (map fst l) ->
  NoDup (map fst (filter snd l) ++ map fst (filter (fun c => negb (snd c)) l)) /\
  incl (map fst (filter snd l) ++ map fst (filter (fun c => negb (snd c)) l))
    (map fst l).
Proof.
  induction l as [|[name ok] l IH]; simpl; intros Hnd.
  - split; [constructor | apply incl_refl].
  - inversion Hnd as [|? ? Hnot Hnd']; subst.
    destruct (IH Hnd') as (IHn & IHi).
    assert (Hfresh : ~ In name (map fst (filter snd l)
                                ++ map fst (filter (fun c => negb (snd c)) l))).
    { intros Hin. apply Hnot. now apply IHi. }
    destruct ok; simpl.
    + split; [now constructor|].
      intros x [<-|Hx]; [now left | right; now apply IHi].
    + split.
      * apply NoDup_cons_iff in Hnd.
        apply (NoDup_Add (a := name) (l := map fst (filter snd l)
                 ++ map fst (filter (fun c => negb (snd c)) l))).
        -- apply Add_app.
        -- auto.
      * intros x Hx. apply in_app_iff in Hx. simpl in Hx.
        destruct Hx as [Hx|[<-|Hx]]; [right|now left|right];
          apply IHi, in_app_iff; auto.
Qed.

Lemma check_names_distinct : NoDup check_names.
Proof.
  unfold check_names.
  repeat (constructor; [simpl; intuition discriminate|]). constructor.
Qed.

Section More.

Context {W : Type} (PW : Playwright W).

(** X1: every check is counted once.  In every run the names in [passed]
    and [failed] are declared checks, no name occurs twice or in both
    lists, and [total] never exceeds the 11 declared checks. *)
Theorem checks_counted_once (w : W) :
  NoDup (passed (results (snd (test_organization_flows PW w)))
         ++ failed (results (snd (test_organization_flows PW w)))) /\
  incl (passed (results (snd (test_organization_flows PW w)))
        ++ failed (results (snd (test_organization_flows PW w))))
    check_names /\
  total (results (snd (test_organization_flows PW w))) <= 11.
Proof.
  destruct (run_spec w) as [(_ & _ & _ & Hres & _)
                           |(_ & l & tail & t & n & Hres & _ & _ & Hcase & _)].
  - rewrite Hres. simpl. repeat split; [constructor | intros x [] | lia].
  - destruct (record_all_fields l no_results) as (Hp & Hf & Ht).
    rewrite Hres, Hp, Hf, Ht. simpl.
    assert (Hpre : exists rest, check_names = map fst l ++ rest).
    { destruct Hcase as [(_ & Hl)|(msg & rest & _ & _ & Hl & _)].
      - exists []. now rewrite app_nil_r.
      - now exists rest. }
    destruct Hpre as (rest & Hl).
    destruct (prefix_names _ _ _ _ Hl check_names_distinct) as (Hnd & Hin & Hlen).
    destruct (split_by_outcome l Hnd) as (Hnd' & Hin').
    rewrite length_map in Hlen. simpl in Hlen.
    repeat split; [exact Hnd' | | exact Hlen].
    intros x Hx. now apply Hin, Hin'.
Qed.

(** X2: the exit status of every run is 0 or 1, and it is 0 exactly when
    the run printed its summary and recorded no failed check; a run with a
    failed check therefore never exits with status 0, whether or not it
    reaches the summary. *)
Theorem exit_zero_iff_clean_summary (w : W) :
  (exit_status (fst (test_organization_flows PW w)) = 0%Z \/
   exit_status (fst (test_organization_flows PW w)) = 1%Z) /\
  (exit_status (fst (test_organization_flows PW w)) = 0%Z <->
   In (Print summary_header) (stdout (snd (test_organization_flows PW w))) /\
   failed (results (snd (test_organization_flows PW w))) = []).
Proof.
  destruct (run_spec w) as [(_ & (msg & Hx) & Hout & _)
                           |(_ & l & tail & t & n & _ & Hm & _ & _ & Hfin)].
  - rewrite Hx, Hout. simpl. split; [now right|].
    split; [discriminate | intros ([] & _)].
  - destruct Hfin as [((msg & Hx) & Hn)|(Hx & Hn & Hsum)].
    + rewrite Hx. simpl. split; [now right|].
      split; [discriminate|]. intros (Hin & _).
      apply header_marked in Hin. rewrite Hm in Hin.
      apply summarised_one in Hin. congruence.
    + rewrite Hx. simpl. destruct Hsum as (Hhead & _).
      destruct (failed (results (snd (test_organization_flows PW w)))); simpl.
      * split; [now left|]. tauto.
      * split; [now right|]. split; [discriminate|]. intros (_ & H).
        discriminate.
Qed.


End More.

(** ** The pass rate *)

Lemma rates_checked :
  forallb
    (fun t =>
       forallb
         (fun p =>
            (Py.format_1f (Py.fmul (Py.truediv p t) (Py.float_of_nat 100))
             =? exact_rate p t)%string)
         (seq 0 (S t)))
    (seq 1 11)
  = true.
Proof. vm_compute. reflexivity. Qed.

Lemma pass_rate_exact (r : Results) :
  total r <= 11 ->
  length (passed r) <= total r ->
  Py.format_1f (pass_rate r) = exact_rate (length (passed r)) (total r).
Proof.
  intros Ht Hp. unfold pass_rate.
  destruct (total r) as [|t] eqn:Htot; [reflexivity|].
  change (0 <? S t)%nat with true. cbv iota.
  pose proof rates_checked as Hall.
  rewrite forallb_forall in Hall.
  specialize (Hall (S t)). rewrite forallb_forall in Hall.
  apply String.eqb_eq, Hall.
  - apply in_seq. lia.
  - apply in_seq. lia.
Qed.

Section Rate.

Context {W : Type} (PW : Playwright W).

(** X4: the pass rate on the summary is the exact percentage of passed
    checks, rounded to the nearest tenth (and 0.0 when nothing was
    recorded): for every Result Set a run can reach, the floating-point
    computation [len(passed) / total * 100] and its [.1f] formatting lose
    nothing. *)
Theorem pass_rate_line_exact (w : W) :
  In (Print summary_header) (stdout (snd (test_organization_flows PW w))) ->
  In (Print (nl ++ "📈 Pass Rate: "
             ++ exact_rate
                  (length (passed (results (snd (test_organization_flows PW w)))))
                  (total (results (snd (test_organization_flows PW w))))
             ++ "%")%string)
    (stdout (snd (test_organization_flows PW w))).
Proof.
  intros Hin.
  destruct (run_spec w) as [(_ & _ & Hout & _)
                           |(_ & l & tail & t & n & Hres & Hm & _ & Hcase & Hfin)].
  - rewrite Hout in Hin. destruct Hin.
  - apply header_marked in Hin. rewrite Hm in Hin. apply summarised_one in Hin.
    destruct Hfin as [(_ & Hn)|(_ & _ & (_ & _ & _ & _ & Hrate))]; [congruence|].
    rewrite pass_rate_exact in Hrate; [exact Hrate| |].
    + destruct (record_all_fields l no_results) as (_ & _ & Ht).
      rewrite Hres, Ht. simpl.
      assert (Hlen : length (map fst l) <= length check_names).
      { destruct Hcase as [(_ & ->)|(msg & rest & _ & _ & -> & _)];
          [lia | rewrite length_app; lia]. }
      rewrite length_map in Hlen. exact Hlen.
    + pose proof (record_all_consistent l no_results eq_refl) as Hc.
      rewrite <- Hres in Hc. unfold consistent in Hc. lia.
Qed.

End Rate.

(** ** The page errors of Test 9 *)

Lemma browser_errors_app (a b : list output) :
  browser_errors (a ++ b) = browser_errors a ++ browser_errors b.
Proof.
  induction a as [|o a IH]; simpl; [reflexivity|].
  destruct (browser_error_of o); simpl; now rewrite IH.
Qed.

Lemma browser_errors_items (items : list string) :
  browser_errors (map (fun item => Print ("   - " ++ item)%string) items) = [].
Proof. induction items as [|item items IH]; simpl; auto. Qed.

Section PageErrors.

Context {W : Type} {PW : Playwright W}.

Lemma collects_events (evs : list event) (s : state W) (errs : list string) :
  js_errors s = Some errs ->
  exists new,
    js_errors (fold_left on_event evs s) = Some (errs ++ new) /\
    browser_errors (stdout (fold_left on_event evs s))
    = browser_errors (stdout s) ++ new /\
    results (fold_left on_event evs s) = results s.
Proof.
  revert s errs. induction evs as [|ev evs IH]; intros s errs Hj; simpl.
  - exists []. now rewrite !app_nil_r.
  - destruct ev as [type text|err].
    + destruct (IH (on_event s (Console type text)) errs Hj) as (new & H1 & H2 & H3).
      exists new. split; [exact H1|]. split; [|exact H3].
      rewrite H2. simpl. rewrite browser_errors_app. simpl.
      now rewrite app_nil_r.
    + assert (Hj' : js_errors (on_event s (PageError err)) = Some (errs ++ [err])).
      { simpl. now rewrite Hj. }
      destruct (IH _ _ Hj') as (new & H1 & H2 & H3).
      exists (err :: new). rewrite H1, H2, H3, <- app_assoc. simpl. rewrite Hj.
      simpl. rewrite browser_errors_app. simpl. rewrite <- app_assoc.
      auto.
Qed.

Lemma collects_page_call {A} (c : call) (op : W -> reply A * list event * W) :
  collects (page_call c op).
Proof.
  intros s errs Hj. unfold page_call.
  destruct (op (world s)) as [[r evs] w'].
  destruct (collects_events evs (set_world w' (traced c s)) errs Hj)
    as (new & H1 & H2 & H3).
  exists new. destruct r; simpl; auto.
Qed.

Lemma collects_bind {A B} (m : M W A) (f : A -> M W B) :
  collects m -> (forall a, collects (f a)) -> collects (bind m f).
Proof.
  intros Hm Hf s errs Hj. unfold bind.
  destruct (Hm s errs Hj) as (new & H1 & H2 & H3).
  destruct (m s) as [[a|e] s1]; simpl in *.
  - destruct (Hf a s1 _ H1) as (new' & H1' & H2' & H3').
    exists (new ++ new'). rewrite H1', H2', H3', H2, H3, !app_assoc. auto.
  - exists new. auto.
Qed.

Lemma collects_visit (pages : list string) : collects (visit pages).
Proof.
  induction pages as [|page rest IH]; simpl.
  - intros s errs Hj. exists []. simpl. now rewrite !app_nil_r.
  - apply collects_bind; [apply collects_page_call | intros _].
    apply collects_bind; [apply collects_page_call | intros _]. exact IH.
Qed.

(** X5: Test 9 counts exactly the page errors reported while it visits its
    four pages.  Whatever was reported earlier in the run, when Test 9
    returns, [js_errors] holds the page errors that the transcript reports
    since the start of the test, in order, and the check is recorded as
    passed exactly when there is none. *)
Theorem check_9_counts_its_page_errors (s s' : state W) :
  test_9 s = (Ok tt, s') ->
  exists errs,
    js_errors s' = Some errs /\
    browser_errors (stdout s') = browser_errors (stdout s) ++ errs /\
    results s'
    = record "No JavaScript errors on main pages" (length errs =? 0)%nat
        (results s).
Proof.
  unfold test_9, bind, print, listen_for_errors, read_js_errors.
  cbn [fst snd].
  set (s2 := set_js_errors (Some []) (emit _ s)).
  destruct (collects_visit test_pages s2 [] eq_refl) as (errs & Hj & Hb & Hr).
  change ([] ++ errs) with errs in Hj.
  destruct (visit test_pages s2) as [[[]|e] s3]; [|discriminate].
  cbn [fst snd] in *. rewrite Hj.
  intros H. exists errs.
  assert (Hb' : browser_errors (stdout s3) = browser_errors (stdout s) ++ errs).
  { rewrite Hb. subst s2. simpl. rewrite browser_errors_app. simpl.
    now rewrite app_nil_r. }
  assert (Hr' : results s3 = results s) by (rewrite Hr; reflexivity).
  unfold log_test in H. cbn [fst snd] in H.
  destruct errs as [|e errs'].
  - apply (f_equal snd) in H. cbn [snd] in H. subst s'. simpl.
    rewrite !browser_errors_app. simpl. rewrite !app_nil_r, Hb', Hr'.
    rewrite app_nil_r. auto.
  - rewrite print_items_run in H.
    apply (f_equal snd) in H. cbn [snd] in H. subst s'.
    unfold emit_all. cbn [stdout js_errors results].
    rewrite browser_errors_app, browser_errors_items, app_nil_r. simpl.
    rewrite !browser_errors_app. simpl. rewrite !app_nil_r, Hb', Hr'. auto.
Qed.

End PageErrors.

(** ** Where the calls of a run go *)

Lemma prefix_app (a b : string) : String.prefix a (a ++ b)%string = true.
Proof.
  induction a as [|c a IH]; simpl; [now destruct b|].
  destruct (ascii_dec c c); [exact IH | congruence].
Qed.

Section Local.

Context {W : Type} {PW : Playwright W}.

Lemma local_still {A} (m : M W A) :
  (forall s, trace (snd (m s)) = trace s) -> stays_local m.
Proof. intros H s. exists []. now rewrite H, app_nil_r. Qed.

Lemma local_bind {A B} (m : M W A) (f : A -> M W B) :
  stays_local m -> (forall a, stays_local (f a)) -> stays_local (bind m f).
Proof.
  intros Hm Hf s. unfold bind.
  destruct (Hm s) as (t & Ht & Hl). destruct (m s) as [[a|e] s1]; simpl in *.
  - destruct (Hf a s1) as (t' & Ht' & Hl'). exists (t ++ t').
    rewrite Ht', Ht, app_assoc, forallb_app, Hl, Hl'. auto.
  - now exists t.
Qed.

Lemma local_page_call {A} (c : call) (op : W -> reply A * list event * W) :
  local_call c = true -> stays_local (page_call c op).
Proof.
  intros Hc s. unfold page_call.
  destruct (op (world s)) as [[r evs] w'].
  destruct (events_frame evs (set_world w' (traced c s))) as (Ht & _).
  exists [c]. simpl. rewrite Hc.
  destruct r; simpl; rewrite Ht; auto.
Qed.

Lemma local_acquire (c : call) (op : W -> reply unit * W) :
  local_call c = true -> stays_local (acquire c op).
Proof.
  intros Hc s. unfold acquire. destruct (op (world s)) as [r w'].
  exists [c]. simpl. rewrite Hc. destruct r; simpl; auto.
Qed.

Lemma local_or_else (a : bool) (b : M W bool) :
  stays_local b -> stays_local (or_else a b).
Proof. destruct a; simpl; [intros _; now apply local_still | auto]. Qed.

Lemma local_and_then (a : bool) (b : M W bool) :
  stays_local b -> stays_local (and_then a b).
Proof. destruct a; simpl; [auto | intros _; now apply local_still]. Qed.

Lemma local_log_test (name : string) (ok : bool) (details : string) :
  stays_local (log_test (W := W) name ok details).
Proof.
  apply local_still. intros s. unfold log_test. cbn [snd].
  now destruct (Py.truthy details).
Qed.

Lemma local_print_items (items : list string) :
  stays_local (print_items (W := W) items).
Proof. apply local_still. intros s. now rewrite print_items_run. Qed.

Ltac local_tac :=
  repeat (intros;
          first [ apply local_log_test
                | apply local_print_items
                | apply local_page_call;
                  first [reflexivity | apply prefix_app]
                | apply local_or_else
                | apply local_and_then
                | solve [apply local_still; reflexivity]
                | apply local_bind
                | match goal with
                  | |- stays_local (match ?x with _ => _ end) => destruct x
                  end ]).

Lemma local_sweep (routes : list string) : stays_local (sweep routes).
Proof.
  induction routes as [|route rest IH]; simpl; [now apply local_still|].
  apply local_bind; [unfold probe, page_goto, has; local_tac|].
  intros [|]; simpl; [exact IH | now apply local_still].
Qed.

Lemma local_visit (pages : list string) : stays_local (visit pages).
Proof.
  induction pages as [|page rest IH]; cbn [visit]; [now apply local_still|].
  unfold page_goto, page_wait_for_timeout.
  apply local_bind; [local_tac | intros _].
  apply local_bind; [local_tac | intros _]. exact IH.
Qed.

Lemma local_checks : stays_local (checks PW).
Proof.
  unfold checks, test_1, test_2, test_3, test_4, test_5, test_6, test_7,
    test_8, test_9, test_10, page_goto, page_screenshot, page_title,
    page_content, page_wait_for_timeout, page_request_get, has.
  repeat first [ apply local_sweep | apply local_visit
               | apply local_bind; [|intros]
               | progress local_tac ].
Qed.

Lemma local_guarded : stays_local (guarded PW).
Proof.
  intros s. unfold guarded, try_except_finally.
  destruct (local_checks s) as (t1 & Ht1 & Hl1).
  destruct (checks PW s) as [r s1]. cbn [snd] in *.
  assert (Hmid : trace (snd (match r with
                             | Exc (Exception msg) => except_handler msg s1
                             | _ => (r, s1)
                             end)) = trace s1).
  { destruct r as [a|[msg|code]]; reflexivity. }
  destruct (match r with
            | Exc (Exception msg) => except_handler msg s1
            | _ => (r, s1)
            end) as [r' s2]. cbn [snd] in Hmid.
  assert (Hfin : stays_local (cleanup (PW := PW))).
  { unfold cleanup, report. local_tac. }
  destruct (Hfin s2) as (t2 & Ht2 & Hl2).
  destruct (cleanup s2) as [rf s3]. cbn [snd] in *.
  exists (t1 ++ t2). split.
  - destruct rf; simpl; now rewrite Ht2, Hmid, Ht1, app_assoc.
  - now rewrite forallb_app, Hl1, Hl2.
Qed.

(** X6: a run never leaves the application on localhost.  In every run,
    every navigation and every API request goes to a URL that starts with
    [http://localhost:3000], and every screenshot is written under
    [/tmp/]. *)
Theorem run_stays_local (w : W) :
  forallb local_call (trace (snd (test_organization_flows PW w))) = true.
Proof.
  unfold test_organization_flows.
  destruct (local_acquire CEnter sync_playwright_enter eq_refl (initial w))
    as (t0 & Ht0 & Hl0).
  destruct (acquire CEnter sync_playwright_enter (initial w)) as [[a|e] s0];
    cbn [snd] in *.
  - assert (Hs : stays_local (session PW)).
    { unfold session, open_page.
      repeat (apply local_bind; [|intros]);
        first [now apply local_acquire | apply local_guarded]. }
    destruct (Hs s0) as (t1 & Ht1 & Hl1).
    destruct (session PW s0) as [r s1]. cbn [snd] in *. simpl.
    rewrite Ht1, Ht0. simpl. rewrite !forallb_app, Hl0, Hl1. reflexivity.
  - rewrite Ht0. simpl. now rewrite Hl0.
Qed.

End Local.

(** ** Concrete runs, continued *)

Lemma exit_zero_iff_clean_summary_witness :
  exit_status (fst (Scripted.run Scripted.server_down)) = 0%Z /\
  In (Print summary_header) (stdout (snd (Scripted.run Scripted.server_down))) /\
  failed (results (snd (Scripted.run Scripted.server_down))) = [].
Proof.
  assert (H : exit_status (fst (Scripted.run Scripted.server_down)) = 0%Z)
    by (vm_compute; reflexivity).
  destruct (exit_zero_iff_clean_summary
              (Scripted.playwright Scripted.server_down) "") as (_ & Hiff).
  exact (conj H (proj1 Hiff H)).
Defined.

Lemma pass_rate_line_exact_witness :
  In (Print summary_header) (stdout (snd (Scripted.run Scripted.settings_open))) /\
  In (Print (nl ++ "📈 Pass Rate: 90.9%")%string)
    (stdout (snd (Scripted.run Scripted.settings_open))).
Proof.
  assert (H : In (Print summary_header)
                (stdout (snd (Scripted.run Scripted.settings_open))))
    by (vm_compute; tauto).
  assert (Hp : length (passed (results (snd (Scripted.run Scripted.settings_open))))
               = 10) by (vm_compute; reflexivity).
  assert (Ht : total (results (snd (Scripted.run Scripted.settings_open))) = 11)
    by (vm_compute; reflexivity).
  pose proof (pass_rate_line_exact
                (Scripted.playwright Scripted.settings_open) "" H) as Hline.
  rewrite Hp, Ht in Hline.
  exact (conj H Hline).
Defined.

Lemma check_9_counts_its_page_errors_witness :
  let s := snd (test_2 (PW := Scripted.playwright noisy) (initial "about:blank")) in
  browser_errors (stdout s) = ["TypeError: x is undefined"] /\
  test_9 (PW := Scripted.playwright noisy) s
  = (Ok tt, snd (test_9 (PW := Scripted.playwright noisy) s)) /\
  exists errs,
    js_errors (snd (test_9 (PW := Scripted.playwright noisy) s)) = Some errs /\
    browser_errors (stdout (snd (test_9 (PW := Scripted.playwright noisy) s)))
    = browser_errors (stdout s) ++ errs /\
    results (snd (test_9 (PW := Scripted.playwright noisy) s))
    = record "No JavaScript errors on main pages" (length errs =? 0)%nat
        (results s).
Proof.
  cbn zeta.
  set (s := snd (test_2 (PW := Scripted.playwright noisy) (initial "about:blank"))).
  assert (Hb : browser_errors (stdout s) = ["TypeError: x is undefined"])
    by (vm_compute; reflexivity).
  assert (H : test_9 (PW := Scripted.playwright noisy) s
              = (Ok tt, snd (test_9 (PW := Scripted.playwright noisy) s)))
    by (vm_compute; reflexivity).
  exact (conj Hb (conj H (check_9_counts_its_page_errors _ _ H))).
Defined.

(** * The currency patcher *)

Lemma count_app (c : N) (a b : Currency.text) :
  Currency.count c (a ++ b) = Currency.count c a + Currency.count c b.
Proof. unfold Currency.count. now rewrite filter_app, length_app. Qed.

Lemma count_replace (c : N) (new content : Currency.text) :
  Currency.count c new = 0 ->
  Currency.count c (Currency.replace c new content) = 0.
Proof.
  intros Hnew. induction content as [|x content IH]; [reflexivity|].
  unfold Currency.replace in *. simpl. rewrite count_app, IH.
  destruct (x =? c)%N eqn:Hx; [lia|].
  unfold Currency.count. simpl. rewrite N.eqb_sym, Hx. reflexivity.
Qed.

Lemma patch_no_pound (is_space is_word : N -> bool) (filepath : string)
  (content : Currency.text) :
  Currency.count Currency.pound
    (Currency.patch is_space is_word filepath content) = 0.
Proof.
  unfold Currency.patch.
  destruct (fold_left _ _ _) as [parts last_end].
  now apply count_replace.
Qed.

Lemma files_distinct : NoDup Currency.FILES_TO_FIX.
Proof.
  unfold Currency.FILES_TO_FIX.
  repeat (constructor; [simpl; intuition discriminate|]). constructor.
Qed.

Section Fixing.

Variables is_space is_word : N -> bool.
Context {F : Type} {FS : Currency.FileSystem F}.

Abbreviation fix_file := (Currency.fix_file is_space is_word).
Abbreviation fix_all := (Currency.fix_all is_space is_word).
Abbreviation patch := (Currency.patch is_space is_word).

Lemma fix_file_run (filepath : string) (fs : F) (content : Currency.text) :
  Currency.read_text filepath fs = Returns content ->
  (Currency.count Currency.pound content = 0 ->
   fix_file filepath fs = (Ok (0, "No currency symbols found"), fs)) /\
  (Currency.count Currency.pound content <> 0 ->
   fst (Currency.write_text filepath (patch filepath content) fs) = Returns tt ->
   fix_file filepath fs
   = (Ok (Currency.count Currency.pound content,
          ("Fixed " ++ Py.str_nat (Currency.count Currency.pound content)
           ++ " symbols")%string),
      snd (Currency.write_text filepath (patch filepath content) fs)) /\
   Currency.count Currency.pound (patch filepath content) = 0).
Proof.
  intros Hread. unfold Currency.fix_file. rewrite Hread. split.
  - intros ->. reflexivity.
  - intros Hn Hw. split; [|apply patch_no_pound].
    destruct (Nat.eqb_spec (Currency.count Currency.pound content) 0);
      [contradiction|].
    destruct (Currency.write_text filepath (patch filepath content) fs)
      as [[[]|msg] fs']; [reflexivity | discriminate].
Qed.

(** X7: [fix_file] leaves no pound sign behind.  When the file holds pound
    signs and can be written, the text written holds none, and the count
    returned is the number of pound signs the file held; a file without
    pound signs is not written at all. *)
Theorem fix_file_leaves_no_pound (filepath : string) (fs : F)
  (content : Currency.text) :
  Currency.read_text filepath fs = Returns content ->
  (Currency.count Currency.pound content = 0 ->
   fix_file filepath fs = (Ok (0, "No currency symbols found"), fs)) /\
  (Currency.count Currency.pound content <> 0 ->
   fst (Currency.write_text filepath (patch filepath content) fs) = Returns tt ->
   fix_file filepath fs
   = (Ok (Currency.count Currency.pound content,
          ("Fixed " ++ Py.str_nat (Currency.count Currency.pound content)
           ++ " symbols")%string),
      snd (Currency.write_text filepath (patch filepath content) fs)) /\
   Currency.count Currency.pound (patch filepath content) = 0).
Proof. apply fix_file_run. Qed.

Hypothesis laws : Currency.lawful.

(** X8: [fix_file] run again on a file it has fixed finds nothing and
    writes nothing. *)
Theorem fix_file_twice (filepath : string) (fs : F) :
  Currency.exists_ filepath fs = true ->
  fix_file filepath (snd (fix_file filepath fs))
  = (Ok (0, "No currency symbols found"), snd (fix_file filepath fs)).
Proof.
  intros Hex.
  destruct (Currency.read_existing laws _ _ Hex) as (content & Hread).
  destruct (fix_file_run filepath fs content Hread) as (Hzero & Hsome).
  destruct (Nat.eq_dec (Currency.count Currency.pound content) 0) as [Hc|Hc].
  - rewrite (Hzero Hc). cbn [snd]. exact (Hzero Hc).
  - destruct (Hsome Hc (Currency.write_existing laws _ _ _ Hex)) as (Hfix & Hnone).
    rewrite Hfix. cbn [snd].
    pose proof (Currency.read_written laws filepath (patch filepath content) fs Hex)
      as Hback.
    unfold Currency.fix_file. rewrite Hback, Hnone. reflexivity.
Qed.

Lemma pounds_of_frame (files : list string) (fs fs' : F) :
  (forall q, In q files -> Currency.read_text q fs' = Currency.read_text q fs) ->
  (forall q, Currency.exists_ q fs' = Currency.exists_ q fs) ->
  Currency.pounds_of files fs' = Currency.pounds_of files fs.
Proof.
  intros Hread Hex. induction files as [|p rest IH]; [reflexivity|].
  simpl. unfold Currency.pounds_in. rewrite Hex, Hread, IH; [reflexivity| |].
  - intros q Hq. apply Hread. now right.
  - now left.
Qed.

(** The loop of [main] over distinct files. *)
Lemma fix_all_run (files : list string) :
  NoDup files ->
  forall (fs : F) (total : nat) (out : list string),
  exists fs' lines,
    fix_all files fs total out
    = (Ok (total + Currency.pounds_of files fs), fs', out ++ lines) /\
    length lines = length files /\
    (forall p, In p files -> Currency.exists_ p fs = true ->
               exists content,
                 Currency.read_text p fs' = Returns content /\
                 Currency.count Currency.pound content = 0) /\
    (forall q, ~ In q files -> Currency.read_text q fs' = Currency.read_text q fs) /\
    (forall q, Currency.exists_ q fs' = Currency.exists_ q fs).
Proof.
  induction 1 as [|p rest Hnot Hnd IH]; intros fs total out.
  - exists fs, []. simpl. rewrite Nat.add_0_r, app_nil_r.
    repeat split; auto. intros p [].
  - cbn [Currency.fix_all Currency.pounds_of].
    destruct (Currency.exists_ p fs) eqn:Hex; cbn [negb].
    + destruct (Currency.read_existing laws _ _ Hex) as (content & Hread).
      destruct (fix_file_run p fs content Hread) as (Hzero & Hsome).
      unfold Currency.pounds_in. rewrite Hread.
      destruct (Nat.eq_dec (Currency.count Currency.pound content) 0) as [Hc|Hc].
      * rewrite (Hzero Hc).
        match goal with
        | |- context [fix_all rest fs ?t ?o] =>
            destruct (IH fs t o)
            as (fs' & lines & Hrun & Hlen & Hclean & Hframe & Hexists)
        end.
        eexists fs', (_ :: lines).
        refine (conj _ (conj _ (conj _ (conj _ Hexists)))).
        -- rewrite Hrun, Hc, <- app_assoc, !Nat.add_0_r. reflexivity.
        -- simpl. now rewrite Hlen.
        -- intros q [<-|Hq] Hq'; [|now apply Hclean].
           exists content. now rewrite (Hframe _ Hnot).
        -- intros q Hq. apply Hframe. simpl in Hq. tauto.
      * set (fs1 := snd (Currency.write_text p (patch p content) fs)).
        destruct (Hsome Hc (Currency.write_existing laws _ _ _ Hex)) as (Hfix & Hnone).
        fold fs1 in Hfix. rewrite Hfix.
        match goal with
        | |- context [fix_all rest fs1 ?t ?o] =>
            destruct (IH fs1 t o)
            as (fs' & lines & Hrun & Hlen & Hclean & Hframe & Hexists)
        end.
        assert (Hsame : Currency.pounds_of rest fs1 = Currency.pounds_of rest fs).
        { apply pounds_of_frame.
          - intros q Hq. apply (Currency.read_other laws). intros ->. contradiction.
          - intros q. now apply (Currency.exists_written laws). }
        eexists fs', (_ :: lines).
        refine (conj _ (conj _ (conj _ (conj _ _)))).
        -- rewrite Hrun, Hsame, <- app_assoc, Nat.add_assoc. reflexivity.
        -- simpl. now rewrite Hlen.
        -- intros q [<-|Hq] Hq'.
           ++ exists (patch p content). rewrite (Hframe _ Hnot). split; [|exact Hnone].
              now apply (Currency.read_written laws).
           ++ apply Hclean; [exact Hq|].
              unfold fs1. now rewrite (Currency.exists_written laws).
        -- intros q Hq. simpl in Hq. rewrite Hframe by tauto.
           apply (Currency.read_other laws). intros ->. tauto.
        -- intros q. rewrite Hexists. now apply (Currency.exists_written laws).
    + match goal with
      | |- context [fix_all rest fs ?t ?o] =>
          destruct (IH fs t o)
          as (fs' & lines & Hrun & Hlen & Hclean & Hframe & Hexists)
      end.
      eexists fs', (_ :: lines).
      refine (conj _ (conj _ (conj _ (conj _ Hexists)))).
      * rewrite Hrun, <- app_assoc. reflexivity.
      * simpl. now rewrite Hlen.
      * intros q [<-|Hq] Hq'; [congruence | now apply Hclean].
      * intros q Hq. apply Hframe. simpl in Hq. tauto.
Qed.

Lemma main_run (fs : F) :
  exists fs' out,
    Currency.main is_space is_word fs = (Ok tt, fs', out) /\
    (forall p, In p Currency.FILES_TO_FIX -> Currency.exists_ p fs = true ->
               exists content,
                 Currency.read_text p fs' = Returns content /\
                 Currency.count Currency.pound content = 0) /\
    (forall q, ~ In q Currency.FILES_TO_FIX ->
               Currency.read_text q fs' = Currency.read_text q fs) /\
    (forall q, Currency.exists_ q fs' = Currency.exists_ q fs) /\
    In (nl ++ "✅ Total fixed: "
        ++ Py.str_nat (Currency.pounds_of Currency.FILES_TO_FIX fs)
        ++ " currency symbols")%string out.
Proof.
  unfold Currency.main.
  destruct (fix_all_run _ files_distinct fs 0
              [("🔧 Batch fixing currency symbols..." ++ nl)%string])
    as (fs' & lines & Hrun & _ & Hclean & Hframe & Hexists).
  rewrite Hrun. eexists fs', _. split; [reflexivity|].
  repeat split; auto.
  rewrite !in_app_iff. right. now left.
Qed.


(** X10: [main] run a second time fixes nothing: it reports a total of 0
    and leaves the file system exactly as the first run left it. *)
Theorem main_twice (fs : F) :
  exists out,
    Currency.main is_space is_word (snd (fst (Currency.main is_space is_word fs)))
    = (Ok tt, snd (fst (Currency.main is_space is_word fs)), out) /\
    In (nl ++ "✅ Total fixed: 0 currency symbols")%string out.
Proof.
  destruct (main_run fs) as (fs' & out & Hmain & Hclean & _ & Hexists & _).
  rewrite Hmain. cbn [fst snd].
  assert (Hstill : forall files total lines,
             (forall p, In p files -> In p Currency.FILES_TO_FIX) ->
             exists lines',
               fix_all files fs' total lines = (Ok total, fs', lines ++ lines')).
  { induction files as [|p rest IH]; intros total lines Hin.
    - exists []. simpl. now rewrite app_nil_r.
    - cbn [Currency.fix_all].
      destruct (Currency.exists_ p fs') eqn:Hex; cbn [negb].
      + destruct (Hclean p) as (content & Hread & Hnone).
        { apply Hin. now left. }
        { now rewrite <- Hexists. }
        destruct (fix_file_run p fs' content Hread) as (Hzero & _).
        rewrite (Hzero Hnone).
        match goal with
        | |- context [fix_all rest fs' ?t ?o] =>
            destruct (IH t o) as (lines' & Hrun)
        end.
        { intros q Hq. apply Hin. now right. }
        rewrite Hrun, Nat.add_0_r, <- app_assoc. eauto.
      + destruct (IH total (lines ++ [("❌ " ++ p ++ ": File not found")%string]))
          as (lines' & Hrun).
        { intros q Hq. apply Hin. now right. }
        rewrite Hrun, <- app_assoc. eauto. }
  unfold Currency.main.
  destruct (Hstill Currency.FILES_TO_FIX 0
              [("🔧 Batch fixing currency symbols..." ++ nl)%string])
    as (lines' & Hrun); [auto|].
  rewrite Hrun. eexists. split; [reflexivity|].
  rewrite !in_app_iff. right. now left.
Qed.

End Fixing.

(** ** Where the import goes *)

Lemma accepts_many_inv (cls : N -> bool) (re : list Currency.atom)
  (w : Currency.text) :
  Currency.accepts (Currency.Many cls :: re) w ->
  exists u w', w = u ++ w' /\ forallb cls u = true /\ Currency.accepts re w'.
Proof. intros H. inversion H; subst. eauto. Qed.

Lemma greedy_sound (cls : N -> bool) (rest : Currency.text -> option nat)
  (re : list Currency.atom) :
  (forall s n, rest s = Some n ->
               n <= length s /\ Currency.accepts re (firstn n s)) ->
  forall s n, Currency.greedy cls rest s = Some n ->
              n <= length s /\
              Currency.accepts (Currency.Many cls :: re) (firstn n s).
Proof.
  intros Hrest.
  assert (Hstop : forall s n, rest s = Some n ->
            n <= length s /\
            Currency.accepts (Currency.Many cls :: re) (firstn n s)).
  { intros s n H. destruct (Hrest s n H) as (Hlen & Hacc). split; [exact Hlen|].
    now apply (Currency.accepts_many cls re [] (firstn n s)). }
  induction s as [|x s IH]; intros n H; simpl in H; [now apply Hstop|].
  destruct (cls x) eqn:Hx; [|now apply Hstop].
  destruct (Currency.greedy cls rest s) as [m|] eqn:Hm; [|now apply Hstop].
  injection H as <-. destruct (IH m eq_refl) as (Hlen & Hacc).
  split; [simpl; lia|]. simpl.
  destruct (accepts_many_inv _ _ _ Hacc) as (u & w & Heq & Hu & Hw).
  rewrite Heq.
  apply (Currency.accepts_many cls re (x :: u) w); [|exact Hw].
  simpl. now rewrite Hx.
Qed.

Lemma match_here_sound (re : list Currency.atom) :
  forall s n, Currency.match_here re s = Some n ->
              n <= length s /\ Currency.accepts re (firstn n s).
Proof.
  induction re as [|[c|cls|cls] re IH]; intros s n H; simpl in H.
  - injection H as <-. split; [lia | constructor].
  - destruct s as [|x s]; [discriminate|].
    destruct (N.eqb_spec x c) as [->|]; [|discriminate].
    destruct (Currency.match_here re s) as [m|] eqn:Hm; [|discriminate].
    injection H as <-. destruct (IH s m Hm) as (Hlen & Hacc).
    split; [simpl; lia|]. simpl. now constructor.
  - now apply (greedy_sound cls _ re IH).
  - destruct s as [|x s]; [discriminate|].
    destruct (cls x) eqn:Hx; [|discriminate].
    destruct (Currency.greedy cls (Currency.match_here re) s) as [m|] eqn:Hm;
      [|discriminate].
    injection H as <-.
    destruct (greedy_sound cls _ re IH s m Hm) as (Hlen & Hacc).
    split; [simpl; lia|]. simpl.
    destruct (accepts_many_inv _ _ _ Hacc) as (u & w & Heq & Hu & Hw).
    rewrite Heq. now constructor.
Qed.

Lemma finditer_from_sound (re : list Currency.atom) (s : Currency.text) :
  forall pos skip a b,
    In (a, b) (Currency.finditer_from re s pos skip) ->
    pos <= a /\ a <= b /\ b - pos <= length s /\
    Currency.accepts re (firstn (b - a) (skipn (a - pos) s)).
Proof.
  assert (Hhere : forall (s : Currency.text) pos n,
             Currency.match_here re s = Some n ->
             pos <= pos /\ pos <= pos + n /\ pos + n - pos <= length s /\
             Currency.accepts re (firstn (pos + n - pos) (skipn (pos - pos) s))).
  { intros s' pos n Hm. destruct (match_here_sound re s' n Hm) as (Hlen & Hacc).
    replace (pos - pos) with 0 by lia. replace (pos + n - pos) with n by lia.
    repeat split; auto; lia. }
  assert (Hnext : forall x (s : Currency.text) pos a b,
             S pos <= a /\ a <= b /\ b - S pos <= length s /\
             Currency.accepts re (firstn (b - a) (skipn (a - S pos) s)) ->
             pos <= a /\ a <= b /\ b - pos <= length (x :: s) /\
             Currency.accepts re (firstn (b - a) (skipn (a - pos) (x :: s)))).
  { intros x s' pos a b (H1 & H2 & H3 & H4).
    replace (a - pos) with (S (a - S pos)) by lia.
    repeat split; auto; simpl; lia. }
  induction s as [|x s IH]; intros pos skip a b Hin; simpl in Hin.
  - destruct skip; [|destruct Hin].
    destruct (Currency.match_here re []) as [n|] eqn:Hm; [|destruct Hin].
    destruct Hin as [Heq|[]]. injection Heq as Ha Hb. subst a b.
    now apply Hhere.
  - destruct skip as [|k].
    + destruct (Currency.match_here re (x :: s)) as [n|] eqn:Hm.
      * destruct Hin as [Heq|Hin].
        -- injection Heq as Ha Hb. subst a b. now apply Hhere.
        -- apply Hnext. now apply IH in Hin.
      * apply Hnext. now apply IH in Hin.
    + apply Hnext. now apply IH in Hin.
Qed.

Lemma import_pattern_shape (w : Currency.text) :
  Currency.accepts Currency.import_pattern w ->
  exists u v,
    w = Currency.lit "import" ++ u ++ Currency.lit "from" ++ v
        ++ Currency.lit ";" ++ [Currency.newline] /\
    ~ In Currency.newline u /\ ~ In Currency.newline v.
Proof.
  assert (Hdot : forall u, forallb Currency.dot u = true ->
                           ~ In Currency.newline u).
  { intros u Hu Hin. rewrite forallb_forall in Hu. specialize (Hu _ Hin).
    discriminate. }
  intros H. cbv in H.
  repeat match goal with
         | H : Currency.accepts (_ :: _) _ |- _ => inversion H; clear H; subst
         end.
  match goal with
  | H : Currency.accepts [] _ |- _ => inversion H; clear H; subst
  end.
  match goal with
  | Hu : forallb _ ?u = true, Hv : forallb _ ?v = true
    |- context [?u ++ _ :: _ :: _ :: _ :: ?v ++ _] => exists u, v
  end.
  split; [reflexivity|]. split; apply Hdot; assumption.
Qed.

(** X11: the import of [getCurrencySymbol] goes on a line of its own,
    directly below an import statement.  [add_import] either leaves the
    text as it is, or the text does not mention [currency-utils] and the
    import line is inserted right after a piece of the text that reads
    [import ... from ... ;] on one line and ends that line; the line
    imports from [../currency-utils] for the files under
    [product-operations] or [order-operations] and from [./currency-utils]
    for the others. *)
Theorem import_is_added_below_an_import (filepath : string)
  (content : Currency.text) :
  Currency.add_import filepath content = content \/
  exists a k u v,
    Currency.contains (Currency.lit "currency-utils") content = false /\
    a <= k /\ k <= length content /\
    Currency.slice a k content
    = Currency.lit "import" ++ u ++ Currency.lit "from" ++ v
      ++ Currency.lit ";" ++ [Currency.newline] /\
    ~ In Currency.newline u /\ ~ In Currency.newline v /\
    Currency.add_import filepath content
    = firstn k content
      ++ Currency.lit
           (if Py.str_in "/product-operations/" filepath
               || Py.str_in "/order-operations/" filepath
            then "import { getCurrencySymbol } from '../currency-utils';"
            else "import { getCurrencySymbol } from './currency-utils';")
      ++ [Currency.newline] ++ skipn k content.
Proof.
  unfold Currency.add_import.
  destruct (Currency.contains (Currency.lit "currency-utils") content) eqn:Hc;
    cbn [negb]; [now left|].
  destruct (Currency.finditer Currency.import_pattern content)
    as [|first others] eqn:Hfind; [now left|].
  right.
  assert (Hin : In (last others first)
                  (Currency.finditer Currency.import_pattern content)).
  { rewrite Hfind.
    destruct (exists_last (l := first :: others)) as (l' & x & Heq);
      [discriminate|].
    replace (last others first) with (last (first :: others) first)
      by (destruct others; reflexivity).
    rewrite Heq, last_last. apply in_or_app. right. now left. }
  destruct (last others first) as [a k]. cbn [snd].
  destruct (finditer_from_sound _ _ _ _ _ _ Hin) as (_ & Hak & Hk & Hacc).
  rewrite Nat.sub_0_r in Hk, Hacc.
  destruct (import_pattern_shape _ Hacc) as (u & v & Hshape & Hu & Hv).
  exists a, k, u, v. unfold Currency.slice.
  repeat split; auto.
  destruct (Py.str_in "/product-operations/" filepath
            || Py.str_in "/order-operations/" filepath);
    now rewrite <- !app_assoc.
Qed.

(** ** The patcher only inserts *)

Lemma embeds_refl {A} (l : list A) : Currency.embeds l l.
Proof. induction l; now constructor. Qed.

Lemma embeds_app {A} (a b c d : list A) :
  Currency.embeds a b -> Currency.embeds c d -> Currency.embeds (a ++ c) (b ++ d).
Proof.
  intros Hab Hcd. induction Hab as [b|x a b _ IH|x a b _ IH]; simpl.
  - induction b; simpl; [exact Hcd | now constructor].
  - now constructor.
  - now constructor.
Qed.

Lemma embeds_trans {A} (a b c : list A) :
  Currency.embeds a b -> Currency.embeds b c -> Currency.embeds a c.
Proof.
  intros Hab Hbc. revert a Hab.
  induction Hbc as [c|x b c _ IH|x b c _ IH]; intros a Hab.
  - inversion Hab; subst. constructor.
  - inversion Hab; subst; constructor; auto.
  - constructor. auto.
Qed.

Lemma embeds_inserted {A} (k : nat) (new l : list A) :
  Currency.embeds l (firstn k l ++ new ++ skipn k l).
Proof.
  rewrite <- (firstn_skipn k l) at 1.
  apply embeds_app; [apply embeds_refl|].
  rewrite <- (app_nil_l (skipn k l)) at 1.
  apply embeds_app; [constructor | apply embeds_refl].
Qed.

Lemma embeds_replace (c : N) (new a b : Currency.text) :
  Currency.embeds a b ->
  Currency.embeds (Currency.replace c new a) (Currency.replace c new b).
Proof.
  unfold Currency.replace.
  induction 1 as [b|x a b _ IH|x a b _ IH]; simpl.
  - constructor.
  - apply embeds_app; [apply embeds_refl | exact IH].
  - rewrite <- (app_nil_l (flat_map _ a)).
    apply embeds_app; [constructor | exact IH].
Qed.

Lemma firstn_plus {A} (n m : nat) (l : list A) :
  firstn (n + m) l = firstn n l ++ firstn m (skipn n l).
Proof.
  revert l. induction n as [|n IH]; intros [|x l]; simpl; auto.
  - now rewrite firstn_nil.
  - now rewrite IH.
Qed.

Lemma slice_slice (a b c : nat) (s : Currency.text) :
  a <= b -> b <= c ->
  Currency.slice a c s = Currency.slice a b s ++ Currency.slice b c s.
Proof.
  intros Hab Hbc. unfold Currency.slice.
  replace (c - a) with ((b - a) + (c - b)) by lia.
  rewrite firstn_plus, skipn_skipn.
  now replace (b - a + a) with b by lia.
Qed.

Lemma firstn_slice (a b : nat) (s : Currency.text) :
  a <= b -> firstn b s = firstn a s ++ Currency.slice a b s.
Proof.
  intros Hab. unfold Currency.slice.
  replace b with (a + (b - a)) at 1 by lia. apply firstn_plus.
Qed.

Lemma find_in_first_at (sub s : Currency.text) :
  forall pos,
    Currency.find_in sub s pos
    = match Currency.first_at sub s with
      | Some i => (pos + Z.of_nat i)%Z
      | None => (-1)%Z
      end.
Proof.
  induction s as [|x s IH]; intros pos; simpl.
  - destruct (Currency.starts_with sub []); [lia | reflexivity].
  - destruct (Currency.starts_with sub (x :: s)); [lia|].
    rewrite IH. destruct (Currency.first_at sub s); simpl; [lia | reflexivity].
Qed.

Lemma first_at_le (sub s : Currency.text) :
  forall i, Currency.first_at sub s = Some i -> i <= length s.
Proof.
  induction s as [|x s IH]; intros i; simpl.
  - destruct (Currency.starts_with sub []); [|discriminate].
    intros [= <-]. lia.
  - destruct (Currency.starts_with sub (x :: s)); [intros [= <-]; lia|].
    destruct (Currency.first_at sub s) as [j|]; [|discriminate].
    intros [= <-]. specialize (IH j eq_refl). lia.
Qed.

Lemma first_at_suffix (sub pre t : Currency.text) (i : nat) :
  Currency.first_at sub t = Some i ->
  exists j, Currency.first_at sub (pre ++ t) = Some j /\ j <= length pre + i.
Proof.
  intros Ht. induction pre as [|x pre (j & Hj & Hle)]; simpl.
  - exists i. split; [exact Ht | lia].
  - destruct (Currency.starts_with sub (x :: pre ++ t)).
    + exists 0. split; [reflexivity | lia].
    + rewrite Hj. exists (S j). split; [reflexivity | lia].
Qed.

Lemma func_end_after_first_at (content : Currency.text) (p : nat) :
  Currency.func_end_after content p
  = match Currency.first_at
            (Currency.newline :: Currency.lit "export async function")
            (skipn p content) with
    | Some i => p + i
    | None => length content
    end.
Proof.
  unfold Currency.func_end_after, Currency.find.
  rewrite find_in_first_at.
  destruct (Currency.first_at _ (skipn p content)) as [i|].
  - replace (Z.of_nat p + Z.of_nat i =? -1)%Z with false
      by (symmetry; apply Z.eqb_neq; lia).
    lia.
  - reflexivity.
Qed.

Lemma func_end_after_bounds (content : Currency.text) (p : nat) :
  p <= length content ->
  p <= Currency.func_end_after content p <= length content.
Proof.
  intros Hp. rewrite func_end_after_first_at.
  destruct (Currency.first_at _ (skipn p content)) as [i|] eqn:Hi; [|lia].
  apply first_at_le in Hi. rewrite length_skipn in Hi. lia.
Qed.

Lemma func_end_after_mono (content : Currency.text) (p q : nat) :
  p <= q -> q <= length content ->
  Currency.func_end_after content p <= Currency.func_end_after content q.
Proof.
  intros Hpq Hq.
  pose proof (func_end_after_bounds content p ltac:(lia)) as Hb.
  rewrite func_end_after_first_at in Hb.
  rewrite (func_end_after_first_at content p).
  rewrite (func_end_after_first_at content q).
  destruct (Currency.first_at _ (skipn q content)) as [i|] eqn:Hi.
  - assert (Hsplit : skipn p content
                     = Currency.slice p q content ++ skipn q content).
    { unfold Currency.slice.
      rewrite <- (firstn_skipn (q - p) (skipn p content)) at 1.
      rewrite skipn_skipn. now replace (q - p + p) with q by lia. }
    destruct (first_at_suffix _ (Currency.slice p q content) _ _ Hi)
      as (j & Hj & Hle).
    rewrite <- Hsplit in Hj. rewrite Hj.
    assert (length (Currency.slice p q content) <= q - p).
    { unfold Currency.slice. rewrite length_firstn. lia. }
    lia.
  - destruct (Currency.first_at _ (skipn p content)); lia.
Qed.

Lemma chained_weaken (lo lo' hi : nat) (ms : list (nat * nat)) :
  lo <= lo' -> Currency.chained lo' hi ms -> Currency.chained lo hi ms.
Proof.
  destruct ms as [|(a, b) rest]; simpl; [auto|].
  intros Hle (Ha & Hab & Hb & Hrest). repeat split; auto; lia.
Qed.

Lemma finditer_from_chained (re : list Currency.atom) (s : Currency.text) :
  forall pos skip,
    Currency.chained (pos + skip) (pos + length s)
      (Currency.finditer_from re s pos skip).
Proof.
  induction s as [|x s IH]; intros pos skip.
  - simpl Currency.finditer_from.
    destruct skip as [|k]; [|exact I].
    destruct (Currency.match_here re []) as [n|] eqn:Hm; [|exact I].
    apply match_here_sound in Hm. simpl in Hm. simpl. lia.
  - simpl Currency.finditer_from. destruct skip as [|k].
    + destruct (Currency.match_here re (x :: s)) as [n|] eqn:Hm.
      * apply match_here_sound in Hm. destruct Hm as (Hn & _). simpl in Hn.
        cbn [Currency.chained length].
        refine (conj _ (conj _ (conj _ _))); try lia.
        apply (chained_weaken _ (S pos + pred n)); [lia|].
        replace (pos + S (length s)) with (S pos + length s) by lia.
        apply IH.
      * apply (chained_weaken _ (S pos + 0)); [lia|].
        replace (pos + length (x :: s)) with (S pos + length s)
          by (simpl; lia).
        apply IH.
    + replace (pos + S k) with (S pos + k) by lia.
      replace (pos + length (x :: s)) with (S pos + length s) by (simpl; lia).
      apply IH.
Qed.

Lemma declare_embeds (func_body : Currency.text) :
  Currency.embeds func_body (Currency.declare func_body).
Proof.
  unfold Currency.declare.
  destruct (_ && _ && _); [|apply embeds_refl].
  destruct (Currency.contains _ _).
  - apply embeds_inserted.
  - rewrite <- (app_nil_l func_body) at 1.
    apply embeds_app; [constructor | apply embeds_refl].
Qed.

Lemma step_embeds (content : Currency.text) (parts : list Currency.text)
  (last_end a b : nat) :
  a <= b -> b <= length content ->
  last_end <= Currency.func_end_after content b ->
  Currency.embeds (firstn last_end content) (concat parts) ->
  Currency.embeds
    (firstn (Currency.func_end_after content b) content)
    (concat
       (parts ++ [Currency.slice last_end a content;
                  Currency.slice a b content;
                  Currency.declare
                    (Currency.slice b (Currency.func_end_after content b)
                       content)])).
Proof.
  intros Hab Hb Hlast Hemb.
  pose proof (func_end_after_bounds content b Hb) as Hfe.
  set (func_end := Currency.func_end_after content b) in *.
  rewrite concat_app. cbn [concat]. rewrite app_nil_r.
  rewrite (firstn_slice last_end func_end) by exact Hlast.
  apply embeds_app; [exact Hemb|].
  assert (Hdecl : Currency.embeds (Currency.slice a func_end content)
                    (Currency.slice a b content
                     ++ Currency.declare (Currency.slice b func_end content))).
  { rewrite (slice_slice a b func_end) by lia.
    apply embeds_app; [apply embeds_refl | apply declare_embeds]. }
  destruct (Nat.le_gt_cases last_end a) as [Hle|Hgt].
  - rewrite (slice_slice last_end a func_end) by lia.
    apply embeds_app; [apply embeds_refl | exact Hdecl].
  - replace (Currency.slice last_end a content) with (@nil N)
      by (unfold Currency.slice; now replace (a - last_end) with 0 by lia).
    cbn [app].
    apply (embeds_trans _ (Currency.slice a func_end content)); [|exact Hdecl].
    rewrite (slice_slice a last_end func_end) by lia.
    rewrite <- (app_nil_l (Currency.slice last_end func_end content)) at 1.
    apply embeds_app; [constructor | apply embeds_refl].
Qed.

Lemma loop_embeds (content : Currency.text) :
  forall ms lo parts last_end,
    Currency.chained lo (length content) ms ->
    last_end <= length content ->
    (forall p, lo <= p -> p <= length content ->
               last_end <= Currency.func_end_after content p) ->
    Currency.embeds (firstn last_end content) (concat parts) ->
    snd (fold_left (Currency.step content) ms (parts, last_end))
      <= length content /\
    Currency.embeds
      (firstn (snd (fold_left (Currency.step content) ms (parts, last_end)))
         content)
      (concat (fst (fold_left (Currency.step content) ms (parts, last_end)))).
Proof.
  induction ms as [|(a, b) ms IH]; intros lo parts last_end Hch Hlen Hnext Hemb.
  - simpl. auto.
  - destruct Hch as (Hlo & Hab & Hb & Hch). cbn [fold_left].
    cbn [Currency.step].
    apply (IH b _ _ Hch).
    + apply func_end_after_bounds, Hb.
    + intros p Hp Hp'. now apply func_end_after_mono.
    + apply (step_embeds content parts last_end a b Hab Hb); [|exact Hemb].
      apply Hnext; [lia | exact Hb].
Qed.

Lemma add_import_embeds (filepath : string) (content : Currency.text) :
  Currency.embeds content (Currency.add_import filepath content).
Proof.
  unfold Currency.add_import.
  destruct (negb _); [|apply embeds_refl].
  destruct (Currency.finditer _ _); [apply embeds_refl|].
  apply embeds_inserted.
Qed.

(** X12 ([fix_file], lines 30-104): the patcher only inserts.  The text it
    writes contains, in order, every character of the text it read, each
    pound sign replaced by the placeholder: nothing of the file is dropped
    or reordered, whatever the two patterns match. *)
Theorem patch_only_inserts (is_space is_word : N -> bool)
  (filepath : string) (original : Currency.text) :
  Currency.embeds
    (Currency.replace Currency.pound (Currency.lit "${currencySymbol}")
       original)
    (Currency.patch is_space is_word filepath original).
Proof.
  unfold Currency.patch.
  set (content := Currency.add_import filepath original).
  pose proof (loop_embeds content
                (Currency.finditer (Currency.function_pattern is_space is_word)
                   content)
                0 [] 0
                (finditer_from_chained _ content 0 0)
                ltac:(lia) ltac:(intros; lia) ltac:(constructor))
    as (Hlen & Hemb).
  destruct (fold_left _ _ _) as (parts, last_end).
  cbn [fst snd] in Hlen, Hemb.
  apply embeds_replace.
  apply (embeds_trans _ content); [apply add_import_embeds|].
  rewrite concat_app. cbn [concat]. rewrite app_nil_r.
  rewrite <- (firstn_skipn last_end content) at 1.
  apply embeds_app; [exact Hemb | apply embeds_refl].
Qed.

(** ** Nothing is added twice *)

Lemma starts_with_app (sub : Currency.text) :
  forall s c, Currency.starts_with sub s = true ->
              Currency.starts_with sub (s ++ c) = true.
Proof.
  induction sub as [|y sub IH]; intros [|x s] c; simpl; try easy.
  intros H. apply andb_prop in H. destruct H as (-> & H). simpl. now apply IH.
Qed.

Lemma first_at_head (sub s : Currency.text) :
  Currency.starts_with sub s = true -> Currency.first_at sub s = Some 0.
Proof. intros H. destruct s; simpl; now rewrite H. Qed.

Lemma first_at_extend (sub c : Currency.text) :
  forall t i, Currency.first_at sub t = Some i ->
              exists j, Currency.first_at sub (t ++ c) = Some j.
Proof.
  induction t as [|x t IH]; intros i.
  - simpl. destruct (Currency.starts_with sub []) eqn:Hs; [|discriminate].
    intros _. exists 0. apply first_at_head.
    now apply (starts_with_app sub [] c).
  - simpl. destruct (Currency.starts_with sub (x :: t)) eqn:Hs.
    + intros _. exists 0.
      apply (first_at_head sub ((x :: t) ++ c)), starts_with_app, Hs.
    + destruct (Currency.first_at sub t) as [k|]; [|discriminate].
      intros _. destruct (IH k eq_refl) as (j & ->).
      destruct (Currency.starts_with sub (x :: t ++ c)); simpl; eauto.
Qed.

Lemma contains_first_at (sub s : Currency.text) :
  Currency.contains sub s
  = match Currency.first_at sub s with Some _ => true | None => false end.
Proof.
  unfold Currency.contains, Currency.find. cbn [skipn].
  rewrite find_in_first_at.
  destruct (Currency.first_at sub s) as [i|]; [|reflexivity].
  replace (Z.of_nat 0 + Z.of_nat i =? -1)%Z with false
    by (symmetry; apply Z.eqb_neq; lia).
  reflexivity.
Qed.

Lemma contains_inside (sub a b c : Currency.text) :
  Currency.contains sub b = true -> Currency.contains sub (a ++ b ++ c) = true.
Proof.
  rewrite !contains_first_at.
  destruct (Currency.first_at sub b) as [i|] eqn:Hb; [|discriminate].
  intros _. destruct (first_at_extend sub c b i Hb) as (j & Hj).
  destruct (first_at_suffix sub a (b ++ c) j Hj) as (k & -> & _).
  reflexivity.
Qed.

Lemma add_import_marks (filepath : string) (content : Currency.text) :
  Currency.add_import filepath content = content \/
  Currency.contains (Currency.lit "currency-utils")
    (Currency.add_import filepath content) = true.
Proof.
  unfold Currency.add_import.
  destruct (negb _); [|now left].
  destruct (Currency.finditer _ _); [now left|]. right.
  apply contains_inside.
  destruct (_ || _); vm_compute; reflexivity.
Qed.

(** X13 ([fix_file], lines 30-45): the import is added at most once.
    Adding the import to a text that has been through the step already
    changes nothing, wherever the import statements of the text are. *)
Theorem import_is_added_once (filepath : string) (content : Currency.text) :
  Currency.add_import filepath (Currency.add_import filepath content)
  = Currency.add_import filepath content.
Proof.
  destruct (add_import_marks filepath content) as [H|H].
  - now rewrite !H.
  - unfold Currency.add_import at 1. now rewrite H.
Qed.

Lemma declare_marks (func_body : Currency.text) :
  Currency.declare func_body = func_body \/
  Currency.contains (Currency.lit "currencySymbol")
    (Currency.declare func_body) = true.
Proof.
  unfold Currency.declare.
  destruct (_ && _ && _); [|now left]. right.
  destruct (Currency.contains Currency.try_open _).
  - apply contains_inside. vm_compute. reflexivity.
  - apply (contains_inside _ []
             (Currency.newline
              :: Currency.lit
                   "  const currencySymbol = getCurrencySymbol(params);")
             func_body).
    vm_compute. reflexivity.
Qed.

(** X14 ([fix_file], lines 86-94): a function body is given the
    declaration of [currencySymbol] at most once.  A body that has been
    through the step is left as it is by a second pass, and a body that
    holds no pound sign is never touched. *)
Theorem declaration_is_added_once (func_body : Currency.text) :
  Currency.declare (Currency.declare func_body) = Currency.declare func_body /\
  (Currency.count Currency.pound func_body = 0 ->
   Currency.declare func_body = func_body).
Proof.
  split.
  - destruct (declare_marks func_body) as [H|H].
    + now rewrite !H.
    + unfold Currency.declare at 1. rewrite H. cbn [negb].
      now rewrite Bool.andb_false_r.
  - intros Hnone. unfold Currency.declare.
    replace (existsb (N.eqb Currency.pound) func_body) with false; [reflexivity|].
    symmetry. apply Bool.not_true_is_false. intros Hex.
    apply existsb_exists in Hex. destruct Hex as (x & Hin & Hx).
    unfold Currency.count in Hnone. apply length_zero_iff_nil in Hnone.
    assert (Hf : In x (filter (N.eqb Currency.pound) func_body))
      by (apply filter_In; auto).
    rewrite Hnone in Hf. destruct Hf.
Qed.

(** ** Concrete files *)

#[local] Existing Instance Currency.listed.

Lemma lookup_written (p q : string) (new : Currency.text)
  (fs : list (string * Currency.text)) :
  Currency.lookup q ((p, new) :: fs)
  = if (p =? q)%string then Some new else Currency.lookup q fs.
Proof.
  unfold Currency.lookup. cbn [List.find fst].
  destruct (p =? q)%string; reflexivity.
Qed.

Lemma listed_lawful : @Currency.lawful _ Currency.listed.
Proof.
  constructor.
  - intros p fs. cbn [Currency.exists_ Currency.read_text Currency.listed].
    destruct (Currency.lookup p fs) as [content|]; [eauto | discriminate].
  - reflexivity.
  - intros p new fs _.
    cbn [Currency.read_text Currency.write_text Currency.listed snd].
    now rewrite lookup_written, String.eqb_refl.
  - intros p q new fs Hpq.
    cbn [Currency.read_text Currency.write_text Currency.listed snd].
    rewrite lookup_written.
    now destruct (String.eqb_spec p q); [contradiction|].
  - intros p q new fs.
    cbn [Currency.exists_ Currency.write_text Currency.listed snd].
    rewrite lookup_written.
    destruct (String.eqb_spec p q) as [->|]; [|reflexivity].
    now destruct (Currency.lookup q fs).
Defined.

Lemma fix_file_leaves_no_pound_witness :
  Currency.read_text "lib/chat/product-operations/stock-operations.ts"
    Currency.checkout
  = Returns Currency.stock_operations /\
  Currency.count Currency.pound Currency.stock_operations = 1 /\
  Currency.count Currency.pound
    (Currency.patch Currency.ascii_space Currency.ascii_word
       "lib/chat/product-operations/stock-operations.ts"
       Currency.stock_operations)
  = 0.
Proof.
  assert (Hread : Currency.read_text
                    "lib/chat/product-operations/stock-operations.ts"
                    Currency.checkout
                  = Returns Currency.stock_operations)
    by (vm_compute; reflexivity).
  assert (Hone : Currency.count Currency.pound Currency.stock_operations = 1)
    by (vm_compute; reflexivity).
  assert (Hsome : Currency.count Currency.pound Currency.stock_operations <> 0)
    by (rewrite Hone; discriminate).
  exact (conj Hread
           (conj Hone
              (proj2 (proj2 (fix_file_leaves_no_pound
                               Currency.ascii_space Currency.ascii_word
                               _ Currency.checkout _ Hread)
                        Hsome eq_refl)))).
Defined.

Lemma fix_file_twice_witness :
  Currency.exists_ "lib/chat/product-operations/stock-operations.ts"
    Currency.checkout = true /\
  Currency.fix_file Currency.ascii_space Currency.ascii_word
    "lib/chat/product-operations/stock-operations.ts"
    (snd (Currency.fix_file Currency.ascii_space Currency.ascii_word
            "lib/chat/product-operations/stock-operations.ts"
            Currency.checkout))
  = (Ok (0, "No currency symbols found"),
     snd (Currency.fix_file Currency.ascii_space Currency.ascii_word
            "lib/chat/product-operations/stock-operations.ts"
            Currency.checkout)).
Proof.
  assert (Hex : Currency.exists_
                  "lib/chat/product-operations/stock-operations.ts"
                  Currency.checkout = true)
    by (vm_compute; reflexivity).
  exact (conj Hex
           (fix_file_twice Currency.ascii_space Currency.ascii_word
              listed_lawful _ Currency.checkout Hex)).
Defined.


Lemma main_twice_witness :
  exists out,
    Currency.main Currency.ascii_space Currency.ascii_word
      (snd (fst (Currency.main Currency.ascii_space Currency.ascii_word
                   Currency.checkout)))
    = (Ok tt,
       snd (fst (Currency.main Currency.ascii_space Currency.ascii_word
                   Currency.checkout)),
       out) /\
    In (nl ++ "✅ Total fixed: 0 currency symbols")%string out.
Proof.
  exact (main_twice Currency.ascii_space Currency.ascii_word listed_lawful
           Currency.checkout).
Defined.

Lemma declaration_is_added_once_witness :
  Currency.count Currency.pound (Currency.lit "  return params.name;") = 0 /\
  Currency.declare (Currency.lit "  return params.name;")
  = Currency.lit "  return params.name;".
Proof.
  assert (H : Currency.count Currency.pound
                (Currency.lit "  return params.name;") = 0)
    by (vm_compute; reflexivity).
  exact (conj H (proj2 (declaration_is_added_once _) H)).
Defined.
